(** * audioio/playaudio.py: a shallow embedding of [PlayAudio]

    The module plays numpy arrays through one of two native backends
    (pyaudio, ossaudiodev), selected at [open] time, with a do-nothing
    default.  The embedding follows the source:

    - Python floats and numpy [float64] values are IEEE 754 binary64
      numbers, the kernel's primitive floats: sums, differences, products
      and quotients round as the processor rounds them, overflow to the
      infinities, and a division by zero inside numpy raises nothing and
      yields an infinity or NaN;
    - what numpy and the C library compute by algorithms of their own
      ([np.mean], [np.sin], the conversion of a value that is no 16-bit
      integer) is taken from the world the program runs in;
    - numpy arrays are references into a heap, so that in-place updates
      ([rawdata /= ...], [data[k] *= ...]) and aliasing are visible;
    - exceptions are an error monad over the program state: a raise keeps
      the state changes made before it, as in Python;
    - the native libraries are opaque: each acquiring, configuring or
      writing call may raise, as scheduled by the world the program runs
      in; releasing calls (close, terminate) only leave an event in the
      trace. *)

From Stdlib Require Import ZArith QArith Qround Lia Floats.
From stdpp Require Import base list strings.

Set Warnings "-inexact-float".

Open Scope Z_scope.

(** ** Exceptions *)

Inductive exn : Type :=
| ImportError
| IndexError
| ValueError
| ZeroDivisionError
| OverflowError
| AttributeError
| SystemError
| Other (cls : string).

Inductive result (A : Type) : Type :=
| Ok (a : A)
| Raise (e : exn).

Arguments Ok {A} a.
Arguments Raise {A} e.

(** ** Python floats and numpy float64 values *)

Abbreviation float64 := float (only parsing).

(** The number that a finite float stands for. *)
Definition value (x : float64) : option Q :=
  match Prim2SF x with
  | S754_zero _ => Some 0%Q
  | S754_finite s m e =>
      Some ((if s then -1 else 1) * inject_Z (Zpos m) * Qpower 2 e)%Q
  | _ => None
  end.

(** Python's [float(k)] for an integer below 2^63 in absolute value. *)
Definition of_Z (z : Z) : float64 :=
  if z <? 0 then (- of_uint63 (Uint63.of_Z (- z)))%float
  else of_uint63 (Uint63.of_Z z).

Definition of_nat (n : nat) : float64 := of_Z (Z.of_nat n).

(** [np.maximum]: [(a >= b || isnan(a)) ? a : b], so that NaN propagates. *)
Definition fmax (x y : float64) : float64 :=
  if (y <=? x)%float || is_nan x then x else y.

(** To the nearest integer, ties to the even one. *)
Definition round_half_even (q : Q) : Z :=
  let f := Qfloor q in
  match (q - inject_Z f ?= 1 # 2)%Q with
  | Lt => f
  | Gt => f + 1
  | Eq => if Z.even f then f else f + 1
  end.

(** [np.round]: a float with no fractional bit is its own rounding; the
    others are below 2^53 in absolute value and round to an integer that
    is a float; a zero result keeps the sign. *)
Definition np_round (x : float64) : float64 :=
  match Prim2SF x, value x with
  | S754_finite s _ e, Some q =>
      if e <? 0 then
        let z := round_half_even q in
        if z =? 0 then (if s then neg_zero else zero) else of_Z z
      else x
  | _, _ => x
  end.

(** Truncation towards zero. *)
Definition int (q : Q) : Z := Z.quot (Qnum q) (Zpos (Qden q)).

(** Python's [int(x)] on a float. *)
Definition py_int (x : float64) : result Z :=
  match value x with
  | Some q => Ok (int q)
  | None => Raise (if is_nan x then ValueError else OverflowError)
  end.

(** [2.0*np.pi] *)
Definition two_pi : float64 := (2 * 3.141592653589793)%float.

(** ** numpy arrays: 1-D (one channel) or 2-D (time by channel) *)

Inductive ndarray (A : Type) : Type :=
| Flat (xs : list A)
| Frames (channels : nat) (rows : list (list A)).

Arguments Flat {A} xs.
Arguments Frames {A} channels rows.

(** [len(a)]: the size of the first axis. *)
Definition len {A} (a : ndarray A) : nat :=
  match a with
  | Flat xs => length xs
  | Frames _ rows => length rows
  end.

(** [a.shape] *)
Definition shape {A} (a : ndarray A) : list nat :=
  match a with
  | Flat xs => [length xs]
  | Frames c rows => [length rows; c]
  end.

Definition elements {A} (a : ndarray A) : list A :=
  match a with
  | Flat xs => xs
  | Frames _ rows => concat rows
  end.

Definition amap {A B} (f : A -> B) (a : ndarray A) : ndarray B :=
  match a with
  | Flat xs => Flat (map f xs)
  | Frames c rows => Frames c (map (map f) rows)
  end.

(** Every row of a 2-D array has [channels] entries. *)
Definition well_shaped {A} (a : ndarray A) : Prop :=
  match a with
  | Flat _ => True
  | Frames c rows => Forall (fun r => length r = c) rows
  end.

Definition column (j : nat) (rows : list (list float64)) : list float64 :=
  omap (fun r : list float64 => r !! j) rows.

Definition np_zeros1 (k : nat) : ndarray float64 :=
  Flat (replicate k zero).

Definition np_zeros2 (k c : nat) : ndarray float64 :=
  Frames c (replicate k (replicate c zero)).

(** [np.max]: the largest element; no element raises ValueError. *)
Definition np_max (a : ndarray float64) : result float64 :=
  match elements a with
  | [] => Raise ValueError
  | x :: xs => Ok (fold_left fmax xs x)
  end.

(** [np.vstack((a, b))]: rows of [b] below those of [a]; a 1-D array counts
    as a single row. *)
Definition np_vstack {A} (a b : ndarray A) : result (ndarray A) :=
  let rows_of (x : ndarray A) :=
    match x with
    | Flat xs => (length xs, [xs])
    | Frames c rows => (c, rows)
    end in
  let '(ca, ra) := rows_of a in
  let '(cb, rb) := rows_of b in
  if Nat.eqb ca cb then Ok (Frames ca (ra ++ rb)) else Raise ValueError.

(** [np.hstack((a, b))]: 1-D arrays are concatenated, 2-D arrays joined
    row by row; arrays of different dimensions raise ValueError. *)
Definition np_hstack {A} (a b : ndarray A) : result (ndarray A) :=
  match a, b with
  | Flat xs, Flat ys => Ok (Flat (xs ++ ys))
  | Frames ca ra, Frames cb rb =>
      if Nat.eqb (length ra) (length rb)
      then Ok (Frames (ca + cb) (zip_with app ra rb))
      else Raise ValueError
  | _, _ => Raise ValueError
  end.

(** [np.arange(0.0, stop, step)] on Python floats: the length is the
    ceiling of the float quotient [(stop - 0.0)/step], a Python division
    that raises on a zero step; the elements are [start], [start + step]
    and then [start + i*delta] with [delta] the difference of the first
    two.  Memory is not bounded: a length below 2^63 is allocated. *)
Definition arange (stop step : float64) : result (list float64) :=
  if (step =? 0)%float then Raise ZeroDivisionError
  else
    let quotient := ((stop - 0) / step)%float in
    match value quotient with
    | None => Raise (if is_nan quotient then ValueError else OverflowError)
    | Some q =>
        let n := Qceiling q in
        if (n <? - 2 ^ 63) || (2 ^ 63 <=? n) then Raise OverflowError
        else
          let first := 0%float in
          let second := (0 + step)%float in
          let delta := (second - first)%float in
          Ok (map (fun i => match i with
                            | O => first
                            | S O => second
                            | _ => (first + of_nat i * delta)%float
                            end)
                  (seq 0 (Z.to_nat n)))
    end.

(** ** The world the program runs in *)

(** What the trace records: warnings and calls into the native libraries. *)
Inductive event : Type :=
| Warn (msg : string)
| Os (call : string)
| PyAudioInit
| StreamOpen (channels : nat) (rate : Z)
| StreamWrite (ad : ndarray Z)
| StreamStop
| StreamClose
| Terminate
| OssOpen
| OssSetfmt
| OssChannels (channels : nat)
| OssSpeed (rate : Z)
| OssWriteall (ad : ndarray Z)
| OssClose.

(** Modelled from the spec: the capability registry [audio_modules] of
    module [audiomodules], which is not part of the sources: a mapping from
    backend identifier to boolean availability whose lookup never throws.
    The other fields are facts of the host that the source leaves to its
    libraries: which native call raises ([fault n] is the exception raised
    by the [n]-th fallible native call, if any), what the C conversion
    behind [astype('i2')] yields for a value that is no 16-bit integer
    (infinities, NaN, out of range), the value that the C library computes
    for [np.sin(x)], and the value that numpy's summation computes for
    [np.mean] of the samples of one channel. *)
Record world : Type := mkWorld {
  audio_modules : string -> bool;
  fault : nat -> option exn;
  cast_invalid : float64 -> Z;
  np_sin : float64 -> float64;
  np_mean : list float64 -> float64;
}.

(** [data - np.mean(data, axis=0)]: a new array, each channel minus its
    own mean. *)
Definition demean (w : world) (a : ndarray float64) : ndarray float64 :=
  match a with
  | Flat xs =>
      let m := np_mean w xs in
      Flat (map (fun x => (x - m)%float) xs)
  | Frames c rows =>
      let ms := map (fun j => np_mean w (column j rows)) (seq 0 c) in
      Frames c (map (fun r => zip_with sub r ms) rows)
  end.

(** ** The session *)

(** The objects that the attributes of a session hold. *)
Inductive object : Type :=
| PyAudio
| PyTrue
| Stream
| OssDevice.

(** The implementations that [self.close] and [self._do_play] are bound to. *)
Inductive close_method : Type :=
| bound_close
| bound_close_pyaudio
| bound_close_ossaudiodev.

Inductive play_method : Type :=
| bound_play
| bound_play_pyaudio
| bound_play_ossaudiodev.

(** The attributes of a [PlayAudio] instance; [None] is Python's [None]
    (an attribute not yet assigned is read by no method). *)
Record session : Type := mkSession {
  handle : option object;
  stream : option object;
  osshandle : option object;
  close : close_method;
  _do_play : play_method;
}.

Record state : Type := mkState {
  self : session;
  heap : list (ndarray float64);
  calls : nat;
  trace : list event;
}.

(** Lines 138-141: the zeros stacked behind [rawdata], [vstack] for more
    than one channel and [hstack] otherwise. *)
Definition pad (channels : nat) (rawdata : ndarray float64)
  : result (ndarray float64) :=
  if (1 <? channels)%nat
  then np_vstack rawdata (np_zeros2 (11 * len rawdata / 10) channels)
  else np_hstack rawdata (np_zeros1 (11 * len rawdata / 10)).

Arguments pad : simpl never.

(** ** Exceptions over state *)

Definition M (A : Type) : Type := state -> result A * state.

Definition ret {A} (a : A) : M A := fun st => (Ok a, st).

Definition raise {A} (e : exn) : M A := fun st => (Raise e, st).

Definition bind {A B} (m : M A) (k : A -> M B) : M B :=
  fun st =>
    match m st with
    | (Ok a, st') => k a st'
    | (Raise e, st') => (Raise e, st')
    end.

(** [try: m except: h] with a bare [except], which catches everything. *)
Definition try_except {A} (m : M A) (h : exn -> M A) : M A :=
  fun st =>
    match m st with
    | (Ok a, st') => (Ok a, st')
    | (Raise e, st') => h e st'
    end.

Declare Scope py_scope.
Delimit Scope py_scope with py.
Bind Scope py_scope with M.

Notation "x <- m ;; k" := (bind m (fun x => k))
  (at level 100, m at next level, k at level 200, right associativity)
  : py_scope.
Notation "m ;; k" := (bind m (fun _ => k))
  (at level 100, k at level 200, right associativity) : py_scope.

Open Scope py_scope.

Definition lift {A} (r : result A) : M A := fun st => (r, st).

Definition get_self : M session := fun st => (Ok (self st), st).

Definition modify_self (f : session -> session) : M unit :=
  fun st => (Ok tt, mkState (f (self st)) (heap st) (calls st) (trace st)).

Definition set_handle (v : option object) : M unit :=
  modify_self (fun s => mkSession v (stream s) (osshandle s) (close s) (_do_play s)).

Definition set_stream (v : option object) : M unit :=
  modify_self (fun s => mkSession (handle s) v (osshandle s) (close s) (_do_play s)).

Definition set_osshandle (v : option object) : M unit :=
  modify_self (fun s => mkSession (handle s) (stream s) v (close s) (_do_play s)).

Definition set_close (v : close_method) : M unit :=
  modify_self (fun s => mkSession (handle s) (stream s) (osshandle s) v (_do_play s)).

Definition set_do_play (v : play_method) : M unit :=
  modify_self (fun s => mkSession (handle s) (stream s) (osshandle s) (close s) v).

Definition log (ev : event) : state -> state :=
  fun st => mkState (self st) (heap st) (calls st) (trace st ++ [ev]).

Definition tick : state -> state :=
  fun st => mkState (self st) (heap st) (S (calls st)) (trace st).

(** A releasing native call: it leaves its event and returns. *)
Definition release (ev : event) : M unit := fun st => (Ok tt, log ev st).

(** [np.array]-producing operations allocate; names hold references. *)
Definition alloc (a : ndarray float64) : M nat :=
  fun st =>
    (Ok (length (heap st)),
     mkState (self st) (heap st ++ [a]) (calls st) (trace st)).

Definition deref (l : nat) : M (ndarray float64) :=
  fun st =>
    match heap st !! l with
    | Some a => (Ok a, st)
    | None => (Raise SystemError, st)
    end.

(** In-place update of the array behind a reference. *)
Definition store (l : nat) (a : ndarray float64) : M unit :=
  fun st =>
    (Ok tt, mkState (self st) (<[l := a]> (heap st)) (calls st) (trace st)).

(** [for x in xs: body x], left when an iteration raises. *)
Fixpoint for_each {A} (xs : list A) (body : A -> M unit) : M unit :=
  match xs with
  | [] => ret tt
  | x :: rest => body x ;; for_each rest body
  end.

(** ** class PlayAudio *)

(** Python objects handed to [__exit__]. *)
Inductive pyobj : Type :=
| PyNone
| PyClass (e : exn)
| PyExn (e : exn)
| PyTraceback.

(** Truth value of an object: [None] is false; classes, tracebacks and
    exception instances (which define neither [__nonzero__] nor [__len__])
    are true. *)
Definition truthy (v : pyobj) : bool :=
  match v with
  | PyNone => false
  | _ => true
  end.

(** [a[i]] on an axis of size [n]: negative indices count from the end. *)
Definition py_index (n : nat) (i : Z) : result nat :=
  if (0 <=? i) && (i <? Z.of_nat n) then Ok (Z.to_nat i)
  else if (- Z.of_nat n <=? i) && (i <? 0) then Ok (Z.to_nat (i + Z.of_nat n))
  else Raise IndexError.

Definition scale_at {A} (f : A -> A) (xs : list A) (i : Z) : result (list A) :=
  match py_index (length xs) i with
  | Ok j =>
      match xs !! j with
      | Some x => Ok (<[j := f x]> xs)
      | None => Raise IndexError
      end
  | Raise e => Raise e
  end.

(** [data[i] *= c], in place. *)
Definition imul_at (data : nat) (i : Z) (c : float64) : M unit :=
  a <- deref data ;;
  match a with
  | Flat xs =>
      xs' <- lift (scale_at (fun x => (x * c)%float) xs i) ;;
      store data (Flat xs')
  | Frames ch rows =>
      rows' <- lift (scale_at (map (fun x => (x * c)%float)) rows i) ;;
      store data (Frames ch rows')
  end.

Section PlayAudio.

Context (w : world).

(** A fallible native call: the [n]-th such call raises what the world
    schedules for it, and otherwise leaves its event. *)
Definition native (ev : event) : M unit :=
  fun st =>
    match fault w (calls st) with
    | Some e => (Raise e, tick st)
    | None => (Ok tt, log ev (tick st))
    end.

(** [astype('i2')]: the C conversion of a double to a 16-bit integer,
    defined for the values that truncate into its range. *)
Definition astype_i2 (x : float64) : Z :=
  match value x with
  | Some q =>
      let z := int q in
      if (-32768 <=? z) && (z <=? 32767) then z else cast_invalid w x
  | None => cast_invalid w x
  end.

(** [np.array(np.round(2.0**15*rawdata)).astype('i2')] *)
Definition quantize (a : ndarray float64) : ndarray Z :=
  amap (fun x => astype_i2 (np_round (32768 * x)%float)) a.

Definition channels_of (d : ndarray float64) : nat :=
  match d with
  | Flat _ => 1
  | Frames c _ => c
  end.

Definition _close : M unit := ret tt.

Definition _play (data : nat) (rate : float64) : M unit := ret tt.

Definition open_pyaudio : M unit :=
  (if audio_modules w "pyaudio" then ret tt else raise ImportError) ;;
  native (Os "dup") ;;
  native (Os "close") ;;
  native (Os "open") ;;
  native PyAudioInit ;;
  set_handle (Some PyAudio) ;;
  set_stream None ;;
  native (Os "close") ;;
  native (Os "dup") ;;
  native (Os "close") ;;
  native (Os "remove") ;;
  set_do_play bound_play_pyaudio ;;
  set_close bound_close_pyaudio.

Definition _play_pyaudio (data : nat) (rate : float64) : M unit :=
  d <- deref data ;;
  let channels := channels_of d in
  s <- get_self ;;
  match handle s with
  | Some PyAudio =>
      hz <- lift (py_int rate) ;;
      native (StreamOpen channels hz) ;;
      set_stream (Some Stream) ;;
      rawdata <- alloc (demean w d) ;;
      r <- deref rawdata ;;
      mx <- lift (np_max r) ;;
      store rawdata (amap (fun x => (x / (mx * 2))%float) r) ;;
      r <- deref rawdata ;;
      padded <- lift (pad channels r) ;;
      let ad := quantize padded in
      native (StreamWrite ad) ;;
      native StreamStop ;;
      release StreamClose ;;
      set_stream None
  | _ => raise AttributeError
  end.

Definition _close_pyaudio : M unit :=
  s <- get_self ;;
  match stream s with
  | Some _ => release StreamClose
  | None => ret tt
  end ;;
  set_stream None ;;
  match handle s with
  | Some PyAudio => release Terminate
  | _ => raise AttributeError
  end.

Definition open_ossaudiodev : M unit :=
  (if audio_modules w "ossaudiodev" then ret tt else raise ImportError) ;;
  set_handle (Some PyTrue) ;;
  set_osshandle None ;;
  set_do_play bound_play_ossaudiodev ;;
  set_close bound_close_ossaudiodev.

Definition _play_ossaudiodev (data : nat) (rate : float64) : M unit :=
  d <- deref data ;;
  let channels := channels_of d in
  native OssOpen ;;
  set_osshandle (Some OssDevice) ;;
  native OssSetfmt ;;
  native (OssChannels channels) ;;
  hz <- lift (py_int rate) ;;
  native (OssSpeed hz) ;;
  rawdata <- alloc (demean w d) ;;
  r <- deref rawdata ;;
  mx <- lift (np_max r) ;;
  store rawdata (amap (fun x => (x / (mx * 2))%float) r) ;;
  r <- deref rawdata ;;
  let rawdata' := quantize r in
  native (OssWriteall rawdata') ;;
  release OssClose ;;
  set_osshandle None.

Definition _close_ossaudiodev : M unit :=
  set_handle None ;;
  s <- get_self ;;
  match osshandle s with
  | Some _ => release OssClose
  | None => ret tt
  end ;;
  set_osshandle None.

(** The list of implemented play functions, in the order of [open]. *)
Definition audio_open : list (string * M unit) :=
  [("pyaudio", open_pyaudio); ("ossaudiodev", open_ossaudiodev)].

Definition warn (msg : string) : M unit := release (Warn msg).

(** The loop of [open]; its value tells which module the loop left with
    [break], if any. *)
Fixpoint open_devices (candidates : list (string * M unit)) : M (option string) :=
  match candidates with
  | [] => ret None
  | (lib, open_device) :: rest =>
      if audio_modules w lib then
        opened <- try_except (open_device ;; ret true)
                    (fun _ => warn ("failed to open audio module " +:+ lib) ;;
                              ret false) ;;
        if (opened : bool) then ret (Some lib) else open_devices rest
      else open_devices rest
  end.

Definition open : M unit := open_devices audio_open ;; ret tt.

Definition __init__ : M unit :=
  modify_self (fun _ => mkSession None None None bound_close bound_play) ;;
  open.

(** [self.close()] and [self._do_play(data, rate)]: calls through the
    attributes that [open] rebinds. *)
Definition call_close : M unit :=
  s <- get_self ;;
  match close s with
  | bound_close => _close
  | bound_close_pyaudio => _close_pyaudio
  | bound_close_ossaudiodev => _close_ossaudiodev
  end.

Definition call_do_play (data : nat) (rate : float64) : M unit :=
  s <- get_self ;;
  match _do_play s with
  | bound_play => _play data rate
  | bound_play_pyaudio => _play_pyaudio data rate
  | bound_play_ossaudiodev => _play_ossaudiodev data rate
  end.

Definition play (data : nat) (rate : float64) : M unit :=
  s <- get_self ;;
  match handle s with
  | None => open
  | Some _ => ret tt
  end ;;
  call_do_play data rate.

(** The ramp loop of [beep]: [for k in xrange(nr)], where [xrange] takes
    no count beyond a C long. *)
Definition ramp_loop (data : nat) (nr : Z) : M unit :=
  (if (nr <? - 2 ^ 63) || (2 ^ 63 <=? nr) then raise OverflowError
   else ret tt) ;;
  for_each (seq 0 (Z.to_nat nr)) (fun k =>
    let c := (of_nat k / of_Z nr)%float in
    imul_at data (Z.of_nat k) c ;;
    d <- deref data ;;
    imul_at data (Z.of_nat (len d) - Z.of_nat k - 1) c).

Definition beep (duration frequency rate ramp : float64) : M unit :=
  step <- (if (rate =? 0)%float then raise ZeroDivisionError
           else ret (1 / rate)%float) ;;
  time <- lift (arange duration step) ;;
  data <- alloc (Flat (map (fun t => np_sin w (two_pi * frequency * t)%float)
                           time)) ;;
  nr <- lift (py_int (np_round (ramp * rate)%float)) ;;
  ramp_loop data nr ;;
  play data rate.

Definition __del__ : M unit := call_close.

Definition __enter__ : M unit := ret tt.

Definition __exit__ (type value tb : pyobj) : M pyobj :=
  __del__ ;;
  ret value.

(** [with open_audio() as audio: body]: the body's exception is dropped
    when [__exit__] returns a true value, and raised again otherwise. *)
Definition with_open_audio {A} (body : M A) : M (option A) :=
  __init__ ;;
  __enter__ ;;
  fun st =>
    match body st with
    | (Ok a, st1) =>
        (__exit__ PyNone PyNone PyNone ;; ret (Some a)) st1
    | (Raise e, st1) =>
        (suppress <- __exit__ (PyClass e) (PyExn e) PyTraceback ;;
         if truthy suppress then ret None else raise e) st1
    end.

End PlayAudio.

(** ** Derived notions used to state the properties *)

(** Lines 135-136 and 193-194 as a function of the array behind [data]:
    mean removal, then the in-place division by twice [np.max]. *)
Definition normalize (w : world) (d : ndarray float64)
  : result (ndarray float64) :=
  match np_max (demean w d) with
  | Ok mx => Ok (amap (fun x => (x / (mx * 2))%float) (demean w d))
  | Raise e => Raise e
  end.

(** [k] more frames of [zero] behind the frames of [a]. *)
Definition extend {A} (zero : A) (k : nat) (a : ndarray A) : ndarray A :=
  match a with
  | Flat xs => Flat (xs ++ replicate k zero)
  | Frames c rows => Frames c (rows ++ replicate k (replicate c zero))
  end.

(** The buffers handed to a device, oldest first. *)
Definition written (t : list event) : list (ndarray Z) :=
  omap (fun ev => match ev with
                  | StreamWrite ad => Some ad
                  | OssWriteall ad => Some ad
                  | _ => None
                  end) t.

Definition no_fault (w : world) : Prop := forall n, fault w n = None.

(** A zero sample, of either sign. *)
Definition is_zero (x : float64) : Prop := x = zero \/ x = neg_zero.

(** The one thing asked of numpy's [np.mean]: the mean of zeros is a
    zero. *)
Definition mean_of_zeros (w : world) : Prop :=
  forall xs, xs <> [] -> Forall is_zero xs -> is_zero (np_mean w xs).

(** What [_play_pyaudio] can stack zeros behind: a 1-D array, or a 2-D
    array of more than one channel. *)
Definition stackable {A} (d : ndarray A) : Prop :=
  match d with
  | Flat _ => True
  | Frames c _ => (1 < c)%nat
  end.

(** A silent buffer: at least one sample, and every sample zero. *)
Definition silent (d : ndarray float64) : Prop :=
  Forall is_zero (elements d) /\ well_shaped d /\ elements d <> [].

(** The session invariant behind [close]: the pyaudio implementations are
    bound only while [handle] holds the PyAudio object. *)
Definition bound_ok (s : session) : Prop :=
  close s = bound_close_pyaudio -> handle s = Some PyAudio.

(** ** Hosts and buffers for the examples *)

Definition wrap16 (z : Z) : Z := (z + 32768) mod 65536 - 32768.

(** The conversion an x86-64 build of numpy performs for [astype('i2')]:
    through a 32-bit integer of which the low 16 bits are kept; what fits
    no 32-bit integer (NaN and the infinities included) becomes the
    integer indefinite 0x80000000, whose low 16 bits are 0. *)
Definition x86_cast (x : float64) : Z :=
  match value x with
  | Some q =>
      let z := int q in
      if (-2147483648 <=? z) && (z <=? 2147483647) then wrap16 z else 0
  | None => 0
  end.

(** A stand-in for the C library's sine: Bhaskara's approximation on each
    half period. *)
Definition bhaskara (x : float64) : float64 :=
  let pi := 3.141592653589793%float in
  (16 * x * (pi - x) / (5 * pi * pi - 4 * x * (pi - x)))%float.

Definition sine (x : float64) : float64 :=
  match value (x / two_pi)%float with
  | Some t =>
      let r := (x - of_Z (Qfloor t) * two_pi)%float in
      if (r <=? 3.141592653589793)%float then bhaskara r
      else (- bhaskara (r - 3.141592653589793))%float
  | None => nan
  end.

(** A mean that sums the samples in sequence, from 0, and divides by their
    count; the mean of no sample is NaN (0/0).  Whatever the order of
    numpy's summation, it computes the same mean wherever no partial sum
    rounds.  (A count is positive; were its conversion to a float not,
    the sum would be left as it is.) *)
Definition sequential_mean (xs : list float64) : float64 :=
  match xs with
  | [] => nan
  | _ =>
      let total := fold_left add xs 0%float in
      let count := of_nat (length xs) in
      if (0 <? count)%float then (total / count)%float else total
  end.

Definition registry (pyaudio ossaudiodev : bool) (lib : string) : bool :=
  if String.eqb lib "pyaudio" then pyaudio
  else if String.eqb lib "ossaudiodev" then ossaudiodev
  else false.

Definition reliable : nat -> option exn := fun _ => None.

(** A host with the given backends on which no native call fails. *)
Definition host (pyaudio ossaudiodev : bool) : world :=
  mkWorld (registry pyaudio ossaudiodev) reliable x86_cast sine sequential_mean.

(** A host with both backends whose [n]-th native call fails. *)
Definition flaky (n : nat) : world :=
  mkWorld (registry true true)
          (fun k => if Nat.eqb k n then Some (Other "IOError") else None)
          x86_cast sine sequential_mean.

(** The state before [PlayAudio()], with the caller's arrays on the heap. *)
Definition boot (arrays : list (ndarray float64)) : state :=
  mkState (mkSession None None None bound_close bound_play) arrays 0 [].

Definition samples (l : list Z) : ndarray float64 :=
  Flat (map of_Z l).

(** [n] periods of a square wave: 1, -1, 1, -1, ... *)
Definition square (n : nat) : ndarray float64 :=
  samples (concat (replicate n [1; -1])).

(** What the loop of [open] can do to a session. *)
Definition selected (st : state) (sel : option string) (st' : state) : Prop :=
  heap st' = heap st
  /\ match sel with
     | None =>
         close (self st') = close (self st)
         /\ _do_play (self st') = _do_play (self st)
         /\ (handle (self st') = handle (self st)
             \/ handle (self st') = Some PyAudio)
     | Some lib =>
         (lib = "pyaudio"
          /\ self st' = mkSession (Some PyAudio) None (osshandle (self st))
                                  bound_close_pyaudio bound_play_pyaudio)
         \/ (lib = "ossaudiodev"
             /\ handle (self st') = Some PyTrue
             /\ osshandle (self st') = None
             /\ close (self st') = bound_close_ossaudiodev
             /\ _do_play (self st') = bound_play_ossaudiodev)
     end.

(** A play implementation touches [stream] and [osshandle] only. *)
Definition same_binding (s s' : session) : Prop :=
  handle s' = handle s /\ close s' = close s /\ _do_play s' = _do_play s.

(** The native calls of [open_pyaudio], in the order of lines 107-116:
    [os.dup(2)], [os.close(2)], [os.open(tmpfile)], [pyaudio.PyAudio()],
    [os.close(2)], [os.dup(oldstderr)], [os.close(oldstderr)],
    [os.remove(tmpfile)]. *)
Definition pyaudio_init_calls : list event :=
  [Os "dup"; Os "close"; Os "open"; PyAudioInit;
   Os "close"; Os "dup"; Os "close"; Os "remove"].

(** The next [k] native calls succeed. *)
Definition succeeds_for (w : world) (st : state) (k : nat) : Prop :=
  forall j, (j < k)%nat -> fault w (j + calls st) = None.

(** The next [k] native calls succeed, and the one after them raises [e]. *)
Definition fails_at (w : world) (st : state) (k : nat) (e : exn) : Prop :=
  succeeds_for w st k /\ fault w (k + calls st) = Some e.

(** ** Sequences of calls on a session *)

(** What a caller can ask of a session. *)
Inductive call : Type :=
| CallOpen
| CallPlay (data : nat) (rate : float64)
| CallBeep (duration frequency rate ramp : float64)
| CallClose.

Definition perform (w : world) (c : call) : M unit :=
  match c with
  | CallOpen => open w
  | CallPlay data rate => play w data rate
  | CallBeep duration frequency rate ramp => beep w duration frequency rate ramp
  | CallClose => call_close
  end.

(** The state after a caller made the calls one after the other, going on
    after each exception. *)
Fixpoint after (w : world) (cs : list call) (st : state) : state :=
  match cs with
  | [] => st
  | c :: rest => after w rest (snd (perform w c st))
  end.

(** [close] and [_do_play] are bound to implementations of one backend. *)
Definition paired (s : session) : Prop :=
  (close s = bound_close /\ _do_play s = bound_play)
  \/ (close s = bound_close_pyaudio /\ _do_play s = bound_play_pyaudio)
  \/ (close s = bound_close_ossaudiodev /\ _do_play s = bound_play_ossaudiodev).

(** ** The module-level functions *)

(** The module's global [handle] (lines 33-34): whether the default
    PlayAudio instance exists; its attributes are the [self] of the
    program state. *)
Definition module_state : Type := bool * state.

(** [play(data, rate)] of the module (lines 229-242). *)
Definition module_play (w : world) (data : nat) (rate : float64)
    (g : module_state) : result unit * module_state :=
  let '(created, st) := g in
  if created then
    let '(r, st') := play w data rate st in (r, (true, st'))
  else
    match __init__ w st with
    | (Ok _, st1) => let '(r, st2) := play w data rate st1 in (r, (true, st2))
    | (Raise e, st1) => (Raise e, (false, st1))
    end.

(** [beep(duration, frequency, rate, ramp)] of the module (lines 245-260). *)
Definition module_beep (w : world) (duration frequency rate ramp : float64)
    (g : module_state) : result unit * module_state :=
  let '(created, st) := g in
  if created then
    let '(r, st') := beep w duration frequency rate ramp st in (r, (true, st'))
  else
    match __init__ w st with
    | (Ok _, st1) =>
        let '(r, st2) := beep w duration frequency rate ramp st1 in
        (r, (true, st2))
    | (Raise e, st1) => (Raise e, (false, st1))
    end.

(** A module-level call: [play] or [beep]. *)
Definition module_perform (w : world) (c : call) (g : module_state)
  : result unit * module_state :=
  match c with
  | CallPlay data rate => module_play w data rate g
  | CallBeep duration frequency rate ramp =>
      module_beep w duration frequency rate ramp g
  | _ => (Ok tt, g)
  end.

Fixpoint module_after (w : world) (cs : list call) (g : module_state)
  : module_state :=
  match cs with
  | [] => g
  | c :: rest => module_after w rest (snd (module_perform w c g))
  end.

(** The calls the module offers. *)
Definition offered (c : call) : Prop :=
  match c with
  | CallPlay _ _ => True
  | CallBeep _ _ _ _ => True
  | _ => False
  end.

(** How often the PyAudio object was created. *)
Definition pyaudio_inits (t : list event) : nat :=
  length (omap (fun ev => match ev with
                          | PyAudioInit => Some tt
                          | _ => None
                          end) t).

Lemma lookup_fresh {A} (h : list A) (x : A) : (h ++ [x]) !! length h = Some x.
Proof. now apply list_lookup_middle. Qed.

Lemma insert_fresh {A} (h : list A) (x y : A) :
  <[length h := y]> (h ++ [x]) = h ++ [y].
Proof.
  rewrite insert_app_r_alt by lia.
  now replace (length h - length h)%nat with 0%nat by lia.
Qed.

Section Run.
Context (w : world) (Hok : no_fault w).

Lemma native_ok ev st : native w ev st = (Ok tt, log ev (tick st)).
Proof. unfold native. now rewrite Hok. Qed.

Lemma _play_ossaudiodev_run st data rate hz d :
  heap st !! data = Some d ->
  py_int rate = Ok hz ->
  _play_ossaudiodev w data rate st =
    match normalize w d with
    | Ok r =>
        (Ok tt,
         mkState (mkSession (handle (self st)) (stream (self st)) None
                            (close (self st)) (_do_play (self st)))
                 (heap st ++ [r]) (5 + calls st)
                 (trace st ++ [OssOpen; OssSetfmt; OssChannels (channels_of d);
                               OssSpeed hz; OssWriteall (quantize w r);
                               OssClose]))
    | Raise e =>
        (Raise e,
         mkState (mkSession (handle (self st)) (stream (self st)) (Some OssDevice)
                            (close (self st)) (_do_play (self st)))
                 (heap st ++ [demean w d]) (4 + calls st)
                 (trace st ++ [OssOpen; OssSetfmt; OssChannels (channels_of d);
                               OssSpeed hz]))
    end.
Proof.
  intros Hd Hz. destruct st as [[hd sm oh cl dp] hp n tr]. cbn in Hd.
  unfold _play_ossaudiodev, normalize, bind, deref, lift. cbn. rewrite Hd.
  rewrite !native_ok. cbn. rewrite Hz.
  rewrite !native_ok. cbn. rewrite lookup_fresh.
  destruct (np_max (demean w d)) as [mx|e]; cbn.
  - rewrite insert_fresh, lookup_fresh, native_ok. cbn. unfold log, tick. cbn.
    now rewrite <- !app_assoc.
  - now rewrite <- !app_assoc.
Qed.

Lemma _play_pyaudio_run st data rate hz d :
  heap st !! data = Some d ->
  handle (self st) = Some PyAudio ->
  py_int rate = Ok hz ->
  _play_pyaudio w data rate st =
    match normalize w d with
    | Ok r =>
        match pad (channels_of d) r with
        | Ok p =>
            (Ok tt,
             mkState (mkSession (Some PyAudio) None (osshandle (self st))
                                (close (self st)) (_do_play (self st)))
                     (heap st ++ [r]) (3 + calls st)
                     (trace st ++ [StreamOpen (channels_of d) hz;
                                   StreamWrite (quantize w p);
                                   StreamStop; StreamClose]))
        | Raise e =>
            (Raise e,
             mkState (mkSession (Some PyAudio) (Some Stream) (osshandle (self st))
                                (close (self st)) (_do_play (self st)))
                     (heap st ++ [r]) (1 + calls st)
                     (trace st ++ [StreamOpen (channels_of d) hz]))
        end
    | Raise e =>
        (Raise e,
         mkState (mkSession (Some PyAudio) (Some Stream) (osshandle (self st))
                            (close (self st)) (_do_play (self st)))
                 (heap st ++ [demean w d]) (1 + calls st)
                 (trace st ++ [StreamOpen (channels_of d) hz]))
    end.
Proof.
  intros Hd Hh Hz. destruct st as [[hd sm oh cl dp] hp n tr]. cbn in Hd, Hh. subst hd.
  unfold _play_pyaudio, normalize, bind, deref, lift. cbn. rewrite Hd. cbn.
  rewrite Hz.
  rewrite !native_ok. cbn. rewrite lookup_fresh.
  destruct (np_max (demean w d)) as [mx|e]; cbn; [|reflexivity].
  rewrite insert_fresh, lookup_fresh. cbn.
  destruct (pad _ _) as [p|e]; cbn; [|reflexivity].
  rewrite !native_ok. cbn. unfold log, tick. cbn. now rewrite <- !app_assoc.
Qed.
End Run.

(** ** Zero samples *)

Lemma sub_zeros x y : is_zero x -> is_zero y -> is_zero (x - y).
Proof. intros [-> | ->] [-> | ->]; cbv; auto. Qed.

Lemma fmax_zeros x y : is_zero x -> is_zero y -> is_zero (fmax x y).
Proof. intros [-> | ->] [-> | ->]; cbv; auto. Qed.

Lemma div_zeros x mx : is_zero x -> is_zero mx -> (x / (mx * 2))%float = nan.
Proof. intros [-> | ->] [-> | ->]; reflexivity. Qed.

Lemma fold_fmax_zeros xs x :
  Forall is_zero xs -> is_zero x -> is_zero (fold_left fmax xs x).
Proof.
  intros H. revert x. induction H as [|y xs Hy _ IH]; intros x Hx; cbn.
  - exact Hx.
  - apply IH. now apply fmax_zeros.
Qed.

(** ** Columns of a 2-D array *)

Lemma column_Forall (P : float64 -> Prop) j rows :
  Forall (Forall P) rows -> Forall P (column j rows).
Proof.
  unfold column. induction 1 as [|r rows Hr _ IH]; cbn; [constructor|].
  destruct (r !! j) as [x|] eqn:E; cbn; [|exact IH].
  constructor; [|exact IH].
  rewrite Forall_forall in Hr. apply Hr. eapply list_elem_of_lookup_2, E.
Qed.

Lemma column_length j c rows :
  Forall (fun r : list float64 => length r = c) rows -> (j < c)%nat ->
  length (column j rows) = length rows.
Proof.
  intros H Hj. unfold column.
  induction H as [|r rows Hr _ IH]; cbn; [reflexivity|].
  destruct (lookup_lt_is_Some_2 r j) as [x ->]; [lia|]. cbn. now rewrite IH.
Qed.

Lemma zip_with_sub_zeros r ms :
  Forall is_zero r -> Forall is_zero ms -> Forall is_zero (zip_with sub r ms).
Proof.
  intros Hr. revert ms. induction Hr as [|x r Hx _ IH]; intros ms Hms; cbn.
  - constructor.
  - destruct Hms as [|m ms Hm Hms]; constructor; auto using sub_zeros.
Qed.

(** ** Shapes *)

Lemma elements_amap {A B} (f : A -> B) (a : ndarray A) :
  elements (amap f a) = map f (elements a).
Proof.
  destruct a as [xs|c rows]; cbn; [reflexivity|].
  induction rows as [|r rows IH]; cbn; [reflexivity|].
  now rewrite map_app, IH.
Qed.

Lemma amap_amap {A B C} (f : A -> B) (g : B -> C) (a : ndarray A) :
  amap g (amap f a) = amap (fun x => g (f x)) a.
Proof.
  destruct a as [xs|c rows]; cbn; f_equal.
  - apply map_map.
  - rewrite map_map. apply map_ext. intros r. apply map_map.
Qed.

Lemma amap_const {A B} (P : A -> Prop) (f : A -> B) (v : B) (a : ndarray A) :
  Forall P (elements a) -> (forall x, P x -> f x = v) ->
  amap f a = amap (fun _ => v) a.
Proof.
  intros H Hf. destruct a as [xs|c rows]; cbn in *; f_equal.
  - apply map_ext_in. intros x Hx. apply Hf.
    rewrite Forall_forall in H. apply H. now apply list_elem_of_In.
  - apply Forall_concat in H. apply map_ext_in. intros r Hr.
    apply map_ext_in. intros x Hx. apply Hf.
    rewrite Forall_forall in H. specialize (H r ltac:(now apply list_elem_of_In)).
    rewrite Forall_forall in H. apply H. now apply list_elem_of_In.
Qed.

Lemma amap_const_demean {B} w (v : B) d :
  well_shaped d -> amap (fun _ => v) (demean w d) = amap (fun _ => v) d.
Proof.
  destruct d as [xs|c rows]; cbn; intros Hs; f_equal.
  - now rewrite map_map.
  - rewrite map_map. apply map_ext_in. intros r Hr.
    apply list_elem_of_In in Hr. rewrite Forall_forall in Hs.
    specialize (Hs r Hr). set (ms := map _ (seq 0 c)).
    assert (Hms : length ms = c) by (unfold ms; now rewrite length_map, length_seq).
    clearbody ms. subst c. clear Hr. revert ms Hms.
    induction r as [|x r IH]; intros [|m ms] Hms; cbn in *; try congruence.
    f_equal. apply IH. congruence.
Qed.

(** ** A silent buffer through the pipeline *)

Lemma demean_silent w d :
  mean_of_zeros w -> silent d -> Forall is_zero (elements (demean w d)).
Proof.
  intros Hw (Hz & Hs & Hne). destruct d as [xs|c rows]; cbn in *.
  - apply Forall_map. eapply Forall_impl; [exact Hz|].
    intros x Hx. cbn. apply sub_zeros; [exact Hx|]. now apply Hw.
  - apply Forall_concat in Hz.
    assert (Hr : rows <> []) by (intros ->; now apply Hne).
    apply Forall_concat, Forall_map, Forall_forall. intros r Hin. cbn.
    apply zip_with_sub_zeros.
    + rewrite Forall_forall in Hz. now apply Hz.
    + apply Forall_map, Forall_forall. intros j Hj. cbn.
      apply list_elem_of_In, in_seq in Hj. apply Hw.
      * intros E. apply (f_equal length) in E.
        rewrite (column_length j c) in E by (assumption || lia).
        destruct rows; cbn in E; [congruence|lia].
      * now apply column_Forall.
Qed.

Lemma normalize_silent w d :
  mean_of_zeros w -> silent d -> normalize w d = Ok (amap (fun _ => nan) d).
Proof.
  intros Hw H. pose proof (demean_silent w d Hw H) as Hz.
  unfold normalize, np_max.
  assert (Hne : elements (demean w d) <> []).
  { destruct H as (_ & Hs & Hne). intros E.
    apply (f_equal (map (fun _ : float64 => tt))) in E.
    rewrite <- elements_amap, (amap_const_demean w tt d Hs), elements_amap in E.
    destruct (elements d); [congruence|discriminate]. }
  destruct (elements (demean w d)) as [|x xs] eqn:E; [congruence|].
  apply Forall_cons in Hz as [Hx Hxs].
  pose proof (fold_fmax_zeros xs x Hxs Hx) as Hmx.
  rewrite (amap_const is_zero _ nan).
  - f_equal. apply amap_const_demean. apply H.
  - rewrite E. now constructor.
  - intros y Hy. now apply div_zeros.
Qed.

(** ** Padding and quantization *)

Lemma pad_stackable r :
  stackable r -> pad (channels_of r) r = Ok (extend zero (11 * len r / 10) r).
Proof.
  destruct r as [xs|c rows]; unfold pad; cbn [channels_of stackable].
  - reflexivity.
  - intros Hc. destruct (Nat.ltb_spec 1 c) as [_|]; [|lia].
    cbn. now rewrite Nat.eqb_refl.
Qed.

Lemma pad_unstackable r :
  ~ stackable r -> pad (channels_of r) r = Raise ValueError.
Proof.
  destruct r as [xs|c rows]; unfold pad; cbn [channels_of stackable].
  - intros H. now destruct H.
  - intros Hc. destruct (Nat.ltb_spec 1 c) as [|_]; [lia|]. reflexivity.
Qed.

Lemma normalize_shape w d r :
  normalize w d = Ok r ->
  len r = len d /\ channels_of r = channels_of d
  /\ (stackable d <-> stackable r).
Proof.
  unfold normalize. destruct (np_max (demean w d)) as [mx|]; [|discriminate].
  intros [= <-]. destruct d as [xs|c rows]; cbn; rewrite ?length_map; tauto.
Qed.

Section Quantize.
Context (w : world).

Lemma astype_zero : astype_i2 w (np_round (32768 * zero)) = 0.
Proof. reflexivity. Qed.

Lemma quantize_extend k r :
  quantize w (extend zero k r) = extend 0 k (quantize w r).
Proof.
  destruct r as [xs|c rows]; cbn; f_equal; rewrite map_app; f_equal.
  - induction k; cbn; [reflexivity|]. now rewrite IHk.
  - induction k; cbn; [reflexivity|]. rewrite IHk. f_equal.
    clear. induction c; cbn; [reflexivity|]. now rewrite IHc.
Qed.

Lemma quantize_nan {A} (d : ndarray A) :
  quantize w (amap (fun _ => nan) d) = amap (fun _ => cast_invalid w nan) d.
Proof. unfold quantize. now rewrite amap_amap. Qed.
End Quantize.

Lemma written_app t1 t2 : written (t1 ++ t2) = written t1 ++ written t2.
Proof. apply omap_app. Qed.

Lemma len_extend {A} (zero : A) k a : len (extend zero k a) = (len a + k)%nat.
Proof.
  destruct a; cbn; now rewrite length_app, length_replicate.
Qed.

(** ** The order of floats *)









(** ** [np.max] *)





(** ** The hosts of the examples *)

Lemma add_zeros x y : is_zero x -> is_zero y -> is_zero (x + y).
Proof. intros [-> | ->] [-> | ->]; cbv; auto. Qed.

Lemma fold_add_zeros xs acc :
  Forall is_zero xs -> is_zero acc -> is_zero (fold_left add xs acc).
Proof.
  intros H. revert acc. induction H as [|x xs Hx _ IH]; intros acc Hacc; cbn.
  - exact Hacc.
  - apply IH. now apply add_zeros.
Qed.

Lemma zero_div_positive z c :
  (0 <? c)%float = true -> is_zero z -> is_zero (z / c).
Proof.
  intros Hc Hz. rewrite ltb_spec in Hc.
  assert (Hq : exists s, Prim2SF (z / c) = S754_zero s).
  { rewrite div_spec. unfold SF64div, SFdiv.
    change (Prim2SF 0) with (S754_zero false) in Hc.
    destruct Hz as [-> | ->];
      [change (Prim2SF zero) with (S754_zero false)
      |change (Prim2SF neg_zero) with (S754_zero true)];
      destruct (Prim2SF c) as [[]|[]| |[] m e]; try discriminate; eauto. }
  destruct Hq as [s Hq]. rewrite <- (SF2Prim_Prim2SF (z / c)), Hq.
  destruct s; cbv; auto.
Qed.

Lemma sequential_mean_of_zeros xs :
  xs <> [] -> Forall is_zero xs -> is_zero (sequential_mean xs).
Proof.
  intros Hne H. unfold sequential_mean. destruct xs as [|x xs]; [congruence|].
  assert (Ht : is_zero (fold_left add (x :: xs) 0%float))
    by (apply fold_add_zeros; [exact H|left; reflexivity]).
  destruct (0 <? of_nat (length (x :: xs)))%float eqn:E; [|exact Ht].
  now apply zero_div_positive.
Qed.

Lemma host_mean_of_zeros py oss : mean_of_zeros (host py oss).
Proof. exact sequential_mean_of_zeros. Qed.

Section Pipeline.
Context (w : world) (Hok : no_fault w).

Lemma _play_ossaudiodev_written st data rate hz d r :
  heap st !! data = Some d -> py_int rate = Ok hz -> normalize w d = Ok r ->
  let out := _play_ossaudiodev w data rate st in
  fst out = Ok tt
  /\ heap (snd out) = heap st ++ [r]
  /\ written (trace (snd out)) = written (trace st) ++ [quantize w r].
Proof.
  intros Hd Hz Hr. cbv zeta.
  rewrite (_play_ossaudiodev_run w Hok st data rate hz d Hd Hz), Hr.
  cbn. rewrite written_app. auto.
Qed.

Lemma _play_pyaudio_written st data rate hz d r :
  heap st !! data = Some d -> handle (self st) = Some PyAudio ->
  py_int rate = Ok hz -> normalize w d = Ok r -> stackable d ->
  let out := _play_pyaudio w data rate st in
  fst out = Ok tt
  /\ heap (snd out) = heap st ++ [r]
  /\ written (trace (snd out)) =
       written (trace st) ++ [extend 0 (11 * len d / 10) (quantize w r)].
Proof.
  intros Hd Hh Hz Hr Hs. cbv zeta.
  rewrite (_play_pyaudio_run w Hok st data rate hz d Hd Hh Hz), Hr.
  destruct (normalize_shape w d r Hr) as (Hl & Hc & Hst).
  rewrite <- Hc, (pad_stackable r (proj1 Hst Hs)), Hl. cbn.
  rewrite written_app, quantize_extend. auto.
Qed.

Lemma _play_pyaudio_unstackable st data rate hz d r :
  heap st !! data = Some d -> handle (self st) = Some PyAudio ->
  py_int rate = Ok hz -> normalize w d = Ok r -> ~ stackable d ->
  let out := _play_pyaudio w data rate st in
  fst out = Raise ValueError
  /\ heap (snd out) = heap st ++ [r]
  /\ written (trace (snd out)) = written (trace st).
Proof.
  intros Hd Hh Hz Hr Hs. cbv zeta.
  rewrite (_play_pyaudio_run w Hok st data rate hz d Hd Hh Hz), Hr.
  destruct (normalize_shape w d r Hr) as (Hl & Hc & Hst).
  rewrite <- Hc, (pad_unstackable r (fun H => Hs (proj2 Hst H))). cbn.
  rewrite written_app. cbn. now rewrite app_nil_r.
Qed.

End Pipeline.

(** ** The sample pipeline *)

(** C3, as amended: for every silent buffer (at least one sample, all of
    them zero) played at a finite rate, with the native calls succeeding
    and numpy's mean of zeros being zero, no error is raised, but the
    divide of the normalization is not skipped: it is executed with the
    divisor [2 * max = 0] and turns every sample into NaN (0/0).  On the
    ossaudiodev path, and on the pyaudio path for a buffer that is 1-D or
    has more than one channel, every quantized sample is then the host's
    conversion of NaN to a 16-bit integer, so the quantized output is all
    zero exactly on hosts where that conversion yields 0 (the pyaudio path
    adds its zero padding behind it).  On the pyaudio path a 2-D buffer of
    one channel is divided as well, and then [np.hstack] raises ValueError
    before anything is written. *)
Theorem silence_is_divided (w : world) (st : state) (data : nat)
    (rate : float64) (hz : Z) (d : ndarray float64) :
  no_fault w -> mean_of_zeros w ->
  heap st !! data = Some d -> py_int rate = Ok hz -> silent d ->
  normalize w d = Ok (amap (fun _ => nan) d)
  /\ (let out := _play_ossaudiodev w data rate st in
      fst out = Ok tt
      /\ heap (snd out) = heap st ++ [amap (fun _ => nan) d]
      /\ written (trace (snd out)) =
           written (trace st) ++ [amap (fun _ => cast_invalid w nan) d])
  /\ (handle (self st) = Some PyAudio -> stackable d ->
      let out := _play_pyaudio w data rate st in
      fst out = Ok tt
      /\ heap (snd out) = heap st ++ [amap (fun _ => nan) d]
      /\ written (trace (snd out)) =
           written (trace st) ++
           [extend 0 (11 * len d / 10) (amap (fun _ => cast_invalid w nan) d)])
  /\ (handle (self st) = Some PyAudio -> ~ stackable d ->
      let out := _play_pyaudio w data rate st in
      fst out = Raise ValueError
      /\ heap (snd out) = heap st ++ [amap (fun _ => nan) d]
      /\ written (trace (snd out)) = written (trace st)).
Proof.
  intros Hok Hw Hd Hz Hs. pose proof (normalize_silent w d Hw Hs) as Hn.
  split; [exact Hn|]. split; [|split].
  - rewrite <- (quantize_nan w d).
    exact (_play_ossaudiodev_written w Hok st data rate hz d _ Hd Hz Hn).
  - intros Hh Hst. rewrite <- (quantize_nan w d).
    exact (_play_pyaudio_written w Hok st data rate hz d _ Hd Hh Hz Hn Hst).
  - intros Hh Hst.
    exact (_play_pyaudio_unstackable w Hok st data rate hz d _ Hd Hh Hz Hn Hst).
Qed.

Lemma silent_samples_00 : silent (samples [0; 0]).
Proof.
  split; [|split].
  - repeat constructor; left; reflexivity.
  - exact I.
  - discriminate.
Qed.

Lemma silence_is_divided_witness :
  let st := snd (__init__ (host true true) (boot [samples [0; 0]])) in
  normalize (host true true) (samples [0; 0]) = Ok (Flat [nan; nan])
  /\ written (trace (snd (_play_ossaudiodev (host true true) 0 44100 st))) =
       [Flat [0; 0]]
  /\ written (trace (snd (_play_pyaudio (host true true) 0 44100 st))) =
       [Flat [0; 0; 0; 0]].
Proof.
  pose proof (silence_is_divided (host true true)
                (snd (__init__ (host true true) (boot [samples [0; 0]])))
                0%nat 44100%float 44100 (samples [0; 0])
                (fun n => eq_refl) (host_mean_of_zeros true true)
                eq_refl eq_refl silent_samples_00) as (Hn & Ho & Hp & _).
  specialize (Hp eq_refl I).
  split; [exact Hn|]. split; [apply Ho|apply Hp].
Defined.

(** C3, as stated, fails on two zero samples: the array behind [rawdata]
    is not left as the mean-removed zeros (the divide is not skipped), it
    holds NaN. *)
Lemma silence_divide_not_skipped :
  let d := samples [0; 0] in
  let out := _play_ossaudiodev (host false true) 0 44100 (boot [d]) in
  demean (host false true) d = Flat [zero; zero]
  /\ heap (snd out) !! 1%nat = Some (Flat [nan; nan])
  /\ ~ (fst out = Ok tt
        /\ heap (snd out) !! 1%nat = Some (demean (host false true) d)
        /\ written (trace (snd out)) = [Flat [0; 0]]).
Proof.
  cbv zeta. split; [reflexivity|]. split; [reflexivity|].
  intros (_ & H & _). vm_compute in H. discriminate.
Qed.




(** A constant buffer, silent or not, has no positive mean-removed sample:
    its divisor is 0 and it normalizes to NaN. *)
Example normalize_constant :
  np_max (demean (host false true) (samples [7; 7; 7])) = Ok zero
  /\ normalize (host false true) (samples [7; 7; 7]) = Ok (Flat [nan; nan; nan]).
Proof. split; reflexivity. Qed.

(** C6, as amended: trailing silence is appended on the pyaudio write path
    only, for a buffer that is 1-D or has more than one channel, and
    before quantization: behind a buffer of [n] frames the written buffer
    carries [11 * n / 10] frames of zero samples (about 110% extra, not
    10%); for a 2-D buffer of one channel [np.hstack] raises ValueError
    and nothing is written; the ossaudiodev path writes the quantized
    buffer with no padding.  (Finite rate, native calls succeeding, a
    buffer that normalization accepts.) *)
Theorem padding_on_pyaudio_only (w : world) (st : state) (data : nat)
    (rate : float64) (hz : Z) (d r : ndarray float64) :
  no_fault w -> heap st !! data = Some d -> py_int rate = Ok hz ->
  normalize w d = Ok r ->
  written (trace (snd (_play_ossaudiodev w data rate st))) =
    written (trace st) ++ [quantize w r]
  /\ (handle (self st) = Some PyAudio -> stackable d ->
      written (trace (snd (_play_pyaudio w data rate st))) =
        written (trace st) ++ [extend 0 (11 * len d / 10) (quantize w r)])
  /\ (handle (self st) = Some PyAudio -> ~ stackable d ->
      fst (_play_pyaudio w data rate st) = Raise ValueError
      /\ written (trace (snd (_play_pyaudio w data rate st))) =
           written (trace st)).
Proof.
  intros Hok Hd Hz Hn. split; [|split].
  - now destruct (_play_ossaudiodev_written w Hok st data rate hz d r Hd Hz Hn)
      as (_ & _ & H).
  - intros Hh Hs.
    now destruct (_play_pyaudio_written w Hok st data rate hz d r Hd Hh Hz Hn Hs)
      as (_ & _ & H).
  - intros Hh Hs.
    now destruct (_play_pyaudio_unstackable w Hok st data rate hz d r
                    Hd Hh Hz Hn Hs) as (H1 & _ & H2).
Qed.

Lemma padding_on_pyaudio_only_witness :
  let st := snd (__init__ (host true true) (boot [square 2])) in
  written (trace (snd (_play_ossaudiodev (host true true) 0 44100 st))) =
    [Flat [16384; -16384; 16384; -16384]]
  /\ written (trace (snd (_play_pyaudio (host true true) 0 44100 st))) =
    [Flat [16384; -16384; 16384; -16384; 0; 0; 0; 0]].
Proof.
  destruct (padding_on_pyaudio_only (host true true)
              (snd (__init__ (host true true) (boot [square 2])))
              0%nat 44100%float 44100 (square 2)
              (Flat [0.5; -0.5; 0.5; -0.5]%float)
              (fun n => eq_refl) eq_refl eq_refl eq_refl) as (Ho & Hp & _).
  split; [exact Ho|exact (Hp eq_refl I)].
Defined.

(** C6, as stated, fails on a buffer of 100 samples: the ossaudiodev path
    writes 100 samples, with no silence behind them, and the pyaudio path
    writes 210, with 110 zero samples behind them; neither adds between 5
    and 20 frames of silence. *)
Lemma padding_not_a_tenth :
  let d := square 50 in
  let q := quantize (host true true)
             (Flat (concat (replicate 50 [0.5; -0.5]%float))) in
  let oss := written (trace (snd (_play_ossaudiodev (host true true) 0 44100
                                    (boot [d])))) in
  let pya := written (trace (snd ((__init__ (host true true) ;;
                                   _play_pyaudio (host true true) 0 44100)
                                    (boot [d])))) in
  oss = [q]
  /\ pya = [extend 0 110 q]
  /\ ~ (exists k, (5 <= k <= 20)%nat /\ oss = [extend 0 k q])
  /\ ~ (exists k, (5 <= k <= 20)%nat /\ pya = [extend 0 k q]).
Proof.
  cbv zeta.
  assert (Ho : written (trace (snd (_play_ossaudiodev (host true true) 0 44100
                                      (boot [square 50])))) =
               [quantize (host true true)
                  (Flat (concat (replicate 50 [0.5; -0.5]%float)))])
    by (vm_compute; reflexivity).
  assert (Hp : written (trace (snd ((__init__ (host true true) ;;
                                     _play_pyaudio (host true true) 0 44100)
                                      (boot [square 50])))) =
               [extend 0 110 (quantize (host true true)
                  (Flat (concat (replicate 50 [0.5; -0.5]%float))))])
    by (vm_compute; reflexivity).
  rewrite Ho, Hp. split; [reflexivity|]. split; [reflexivity|]. split.
  - intros (k & Hk & E). apply (f_equal (map len)) in E. cbn [map] in E.
    rewrite len_extend in E. injection E as E. lia.
  - intros (k & Hk & E). apply (f_equal (map len)) in E. cbn [map] in E.
    rewrite !len_extend in E. injection E as E. lia.
Qed.

(** ** Opening a backend *)

Ltac case_faults w :=
  repeat match goal with
         | |- context [fault w ?n] => destruct (fault w n); cbn
         end.

Section Open.
Context (w : world).

Lemma open_pyaudio_cases st :
  (exists st',
      open_pyaudio w st = (Ok tt, st')
      /\ self st' = mkSession (Some PyAudio) None (osshandle (self st))
                              bound_close_pyaudio bound_play_pyaudio
      /\ heap st' = heap st)
  \/ (exists e st',
         open_pyaudio w st = (Raise e, st')
         /\ heap st' = heap st
         /\ close (self st') = close (self st)
         /\ _do_play (self st') = _do_play (self st)
         /\ (handle (self st') = handle (self st)
             \/ handle (self st') = Some PyAudio)).
Proof.
  destruct st as [[hd sm oh cl dp] hp n tr].
  unfold open_pyaudio, bind, native. cbn.
  destruct (audio_modules w "pyaudio"); cbn.
  - case_faults w; eauto 12.
  - right. eauto 12.
Qed.

Lemma open_ossaudiodev_ok st :
  audio_modules w "ossaudiodev" = true ->
  open_ossaudiodev w st =
    (Ok tt,
     mkState (mkSession (Some PyTrue) (stream (self st)) None
                        bound_close_ossaudiodev bound_play_ossaudiodev)
             (heap st) (calls st) (trace st)).
Proof. intros E. unfold open_ossaudiodev, bind. now rewrite E. Qed.

Lemma open_devices_spec st :
  exists sel st',
    open_devices w (audio_open w) st = (Ok sel, st') /\ selected st sel st'.
Proof.
  unfold audio_open, open_devices.
  assert (Hoss : forall st1, heap st1 = heap st ->
            close (self st1) = close (self st) ->
            _do_play (self st1) = _do_play (self st) ->
            (handle (self st1) = handle (self st)
             \/ handle (self st1) = Some PyAudio) ->
            exists sel st',
              (if audio_modules w "ossaudiodev"
               then opened <- try_except (open_ossaudiodev w ;; ret true)
                                (fun _ => warn ("failed to open audio module "
                                                +:+ "ossaudiodev") ;; ret false) ;;
                    if (opened : bool) then ret (Some "ossaudiodev") else ret None
               else ret None) st1 = (Ok sel, st')
              /\ selected st sel st').
  { intros st1 Hh Hc Hp Hd.
    destruct (audio_modules w "ossaudiodev") eqn:E.
    - unfold bind, try_except. rewrite (open_ossaudiodev_ok st1 E). cbn.
      eexists _, _. split; [reflexivity|]. split; [exact Hh|].
      right. cbn. auto.
    - eexists _, _. split; [reflexivity|]. split; [exact Hh|]. auto. }
  destruct (audio_modules w "pyaudio") eqn:E.
  - unfold bind at 1. unfold try_except at 1. unfold bind at 1.
    destruct (open_pyaudio_cases st)
      as [(st' & -> & Hs & Hh)|(e & st' & -> & Hh & Hc & Hp & Hd)].
    + cbn. eexists _, _. split; [reflexivity|]. split; [exact Hh|].
      left. auto.
    + cbn. apply Hoss; cbn; auto.
  - apply Hoss; auto.
Qed.

Lemma open_pyaudio_succeeds st :
  audio_modules w "pyaudio" = true -> succeeds_for w st 8 ->
  open_pyaudio w st =
    (Ok tt,
     mkState (mkSession (Some PyAudio) None (osshandle (self st))
                        bound_close_pyaudio bound_play_pyaudio)
             (heap st) (8 + calls st) (trace st ++ pyaudio_init_calls)).
Proof.
  intros Hpy H. destruct st as [[hd sm oh cl dp] hp n tr].
  unfold succeeds_for in H. cbn in H.
  pose proof (H 0%nat ltac:(lia)) as H0. pose proof (H 1%nat ltac:(lia)) as H1.
  pose proof (H 2%nat ltac:(lia)) as H2. pose proof (H 3%nat ltac:(lia)) as H3.
  pose proof (H 4%nat ltac:(lia)) as H4. pose proof (H 5%nat ltac:(lia)) as H5.
  pose proof (H 6%nat ltac:(lia)) as H6. pose proof (H 7%nat ltac:(lia)) as H7.
  cbn in H0, H1, H2, H3, H4, H5, H6, H7.
  unfold open_pyaudio, bind, native. cbn. rewrite Hpy. cbn.
  rewrite H0. cbn. rewrite H1. cbn. rewrite H2. cbn. rewrite H3. cbn.
  rewrite H4. cbn. rewrite H5. cbn. rewrite H6. cbn. rewrite H7. cbn.
  now rewrite <- !app_assoc.
Qed.

Lemma open_pyaudio_fails_at st k e :
  audio_modules w "pyaudio" = true -> (k < 8)%nat -> fails_at w st k e ->
  open_pyaudio w st =
    (Raise e,
     mkState (mkSession (if (4 <=? k)%nat then Some PyAudio else handle (self st))
                        (if (4 <=? k)%nat then None else stream (self st))
                        (osshandle (self st)) (close (self st)) (_do_play (self st)))
             (heap st) (S k + calls st)
             (trace st ++ take k pyaudio_init_calls)).
Proof.
  intros Hpy Hk [H He]. destruct st as [[hd sm oh cl dp] hp n tr].
  unfold succeeds_for in H. cbn in H, He.
  unfold open_pyaudio, bind, native. cbn. rewrite Hpy. cbn.
  do 8 (destruct k as [|k];
        [try (pose proof (H 0%nat ltac:(lia)));
         try (pose proof (H 1%nat ltac:(lia)));
         try (pose proof (H 2%nat ltac:(lia)));
         try (pose proof (H 3%nat ltac:(lia)));
         try (pose proof (H 4%nat ltac:(lia)));
         try (pose proof (H 5%nat ltac:(lia)));
         try (pose proof (H 6%nat ltac:(lia)));
         clear H; cbn in *;
         repeat (match goal with F : fault w _ = _ |- _ => rewrite F end; cbn);
         unfold tick, log; cbn; rewrite <- ?app_assoc, ?app_nil_r; reflexivity|]).
  lia.
Qed.

Lemma open_devices_pyaudio_fails st k e :
  audio_modules w "pyaudio" = true -> (k < 8)%nat -> fails_at w st k e ->
  open_devices w (audio_open w) st =
    open_devices w [("ossaudiodev", open_ossaudiodev w)]
      (log (Warn "failed to open audio module pyaudio")
           (snd (open_pyaudio w st))).
Proof.
  intros Hpy Hk Hf. unfold audio_open. cbn [open_devices]. rewrite Hpy.
  unfold bind at 1. unfold try_except. unfold bind at 1.
  now rewrite (open_pyaudio_fails_at st k e Hpy Hk Hf).
Qed.

(** [open] leaves the loop at the first candidate that opens. *)
Lemma open_first_success st :
  audio_modules w "pyaudio" = true -> succeeds_for w st 8 ->
  open w st =
    (Ok tt,
     mkState (mkSession (Some PyAudio) None (osshandle (self st))
                        bound_close_pyaudio bound_play_pyaudio)
             (heap st) (8 + calls st) (trace st ++ pyaudio_init_calls)).
Proof.
  intros Hpy H. unfold open, audio_open. cbn [open_devices]. rewrite Hpy.
  unfold bind at 1. unfold bind at 1. unfold try_except. unfold bind at 1.
  now rewrite (open_pyaudio_succeeds st Hpy H).
Qed.

(** A candidate that is not available is passed over in silence. *)
Lemma open_without_pyaudio st :
  audio_modules w "pyaudio" = false ->
  open w st =
    (Ok tt,
     if audio_modules w "ossaudiodev"
     then mkState (mkSession (Some PyTrue) (stream (self st)) None
                             bound_close_ossaudiodev bound_play_ossaudiodev)
                  (heap st) (calls st) (trace st)
     else st).
Proof.
  intros Hpy. unfold open, audio_open. cbn [open_devices]. rewrite Hpy.
  destruct (audio_modules w "ossaudiodev") eqn:Hoss.
  - unfold bind at 1. unfold bind at 1. unfold try_except. unfold bind at 1.
    now rewrite (open_ossaudiodev_ok st Hoss).
  - reflexivity.
Qed.

(** A candidate that raises leaves its warning, and the next one is tried. *)
Lemma open_after_failure st k e :
  audio_modules w "pyaudio" = true -> (k < 8)%nat -> fails_at w st k e ->
  open w st =
    (Ok tt,
     let hd := if (4 <=? k)%nat then Some PyAudio else handle (self st) in
     let sm := if (4 <=? k)%nat then None else stream (self st) in
     mkState (if audio_modules w "ossaudiodev"
              then mkSession (Some PyTrue) sm None
                             bound_close_ossaudiodev bound_play_ossaudiodev
              else mkSession hd sm (osshandle (self st))
                             (close (self st)) (_do_play (self st)))
             (heap st) (S k + calls st)
             (trace st ++ take k pyaudio_init_calls
                ++ [Warn "failed to open audio module pyaudio"])).
Proof.
  intros Hpy Hk Hf. unfold open. unfold bind at 1.
  rewrite (open_devices_pyaudio_fails st k e Hpy Hk Hf).
  rewrite (open_pyaudio_fails_at st k e Hpy Hk Hf).
  cbn [open_devices snd].
  destruct (audio_modules w "ossaudiodev") eqn:Hoss.
  - unfold bind at 1. unfold try_except. unfold bind at 1.
    rewrite (open_ossaudiodev_ok _ Hoss). cbn. now rewrite <- app_assoc.
  - cbn. unfold log. cbn. now rewrite <- app_assoc.
Qed.
End Open.

Lemma open_returns w st : fst (open w st) = Ok tt.
Proof.
  unfold open, bind.
  now destruct (open_devices_spec w st) as (sel & st' & -> & _).
Qed.

Lemma open_runs_the_loop w st :
  open w st = (Ok tt, snd (open_devices w (audio_open w) st)).
Proof.
  unfold open, bind.
  now destruct (open_devices_spec w st) as (sel & st' & -> & _).
Qed.

Lemma open_keeps_bindings w st :
  fst (open_devices w (audio_open w) st) = Ok None ->
  close (self (snd (open w st))) = close (self st)
  /\ _do_play (self (snd (open w st))) = _do_play (self st).
Proof.
  unfold open, bind.
  destruct (open_devices_spec w st) as (sel & st' & -> & _ & Hsel). cbn.
  intros [= ->]. now destruct Hsel as (Hc & Hp & _).
Qed.

(** C1: [open] never raises and is the loop over the candidates pyaudio,
    then ossaudiodev.  The loop stops at the first candidate that opens:
    when pyaudio is available and its native calls succeed, the session is
    bound to pyaudio, with no warning left and ossaudiodev not tried.  A
    candidate that is not available is passed over.  A candidate whose
    initialization raises leaves the warning and the loop goes on with the
    next candidate: when a native call of pyaudio's initialization raises,
    [open] leaves the calls made so far and the warning that names pyaudio,
    and the session is bound to ossaudiodev when that is available.  When
    no candidate succeeds, [close] and [_do_play] stay bound to what they
    were bound to, which after [__init__] are the do-nothing [_close] and
    [_play]; and [play] on such a session does not raise when no backend
    can be opened, in particular when none is available. *)
Theorem open_never_raises (w : world) :
  map fst (audio_open w) = ["pyaudio"; "ossaudiodev"]
  /\ (forall st, open w st = (Ok tt, snd (open_devices w (audio_open w) st)))
  /\ (forall st,
        audio_modules w "pyaudio" = true -> succeeds_for w st 8 ->
        open w st =
          (Ok tt,
           mkState (mkSession (Some PyAudio) None (osshandle (self st))
                              bound_close_pyaudio bound_play_pyaudio)
                   (heap st) (8 + calls st) (trace st ++ pyaudio_init_calls)))
  /\ (forall st,
        audio_modules w "pyaudio" = false ->
        open w st =
          (Ok tt,
           if audio_modules w "ossaudiodev"
           then mkState (mkSession (Some PyTrue) (stream (self st)) None
                                   bound_close_ossaudiodev bound_play_ossaudiodev)
                        (heap st) (calls st) (trace st)
           else st))
  /\ (forall st k e,
        audio_modules w "pyaudio" = true -> (k < 8)%nat -> fails_at w st k e ->
        fst (open_pyaudio w st) = Raise e
        /\ open w st =
          (Ok tt,
           let hd := if (4 <=? k)%nat then Some PyAudio else handle (self st) in
           let sm := if (4 <=? k)%nat then None else stream (self st) in
           mkState (if audio_modules w "ossaudiodev"
                    then mkSession (Some PyTrue) sm None
                                   bound_close_ossaudiodev bound_play_ossaudiodev
                    else mkSession hd sm (osshandle (self st))
                                   (close (self st)) (_do_play (self st)))
                   (heap st) (S k + calls st)
                   (trace st ++ take k pyaudio_init_calls
                      ++ [Warn "failed to open audio module pyaudio"])))
  /\ (forall lib open_device rest st e st1,
        audio_modules w lib = true ->
        open_device st = (Raise e, st1) ->
        open_devices w ((lib, open_device) :: rest) st =
          open_devices w rest
            (log (Warn ("failed to open audio module " +:+ lib)) st1))
  /\ (forall lib open_device rest st st1,
        audio_modules w lib = true ->
        open_device st = (Ok tt, st1) ->
        open_devices w ((lib, open_device) :: rest) st = (Ok (Some lib), st1))
  /\ (forall st,
        fst (open_devices w (audio_open w) st) = Ok None ->
        close (self (snd (open w st))) = close (self st)
        /\ _do_play (self (snd (open w st))) = _do_play (self st))
  /\ (forall st data rate,
        _do_play (self st) = bound_play ->
        (handle (self st) = None ->
         fst (open_devices w (audio_open w) st) = Ok None) ->
        fst (play w data rate st) = Ok tt)
  /\ (forall st data rate,
        audio_modules w "pyaudio" = false ->
        audio_modules w "ossaudiodev" = false ->
        let st' := snd (__init__ w st) in
        fst (__init__ w st) = Ok tt
        /\ close (self st') = bound_close
        /\ _do_play (self st') = bound_play
        /\ fst (play w data rate st') = Ok tt
        /\ fst (call_close (snd (play w data rate st'))) = Ok tt).
Proof.
  pose proof (open_returns w) as Hopen.
  pose proof (open_keeps_bindings w) as Hkeep.
  assert (Hplay : forall st data rate,
            _do_play (self st) = bound_play ->
            (handle (self st) = None ->
             fst (open_devices w (audio_open w) st) = Ok None) ->
            fst (play w data rate st) = Ok tt).
  { intros st data rate Hb Hnone. unfold play, bind, get_self.
    destruct (handle (self st)) eqn:Hh.
    - cbn. unfold call_do_play, bind, get_self. now rewrite Hb.
    - specialize (Hnone eq_refl). destruct (Hkeep st Hnone) as [_ Hp].
      pose proof (Hopen st) as Ho.
      destruct (open w st) as [[[]|e] st']; cbn in *; [|discriminate].
      unfold call_do_play, bind, get_self. now rewrite Hp, Hb. }
  split; [reflexivity|].
  split; [exact (open_runs_the_loop w)|].
  split; [exact (open_first_success w)|].
  split; [exact (open_without_pyaudio w)|].
  split.
  { intros st k e Hpy Hk Hf. split.
    - now rewrite (open_pyaudio_fails_at w st k e Hpy Hk Hf).
    - exact (open_after_failure w st k e Hpy Hk Hf). }
  split.
  { intros lib open_device rest st e st1 Hlib Hraise. cbn [open_devices].
    rewrite Hlib. unfold bind at 1. unfold try_except. unfold bind at 1.
    rewrite Hraise. reflexivity. }
  split.
  { intros lib open_device rest st st1 Hlib Hok. cbn [open_devices].
    rewrite Hlib. unfold bind at 1. unfold try_except. unfold bind at 1.
    rewrite Hok. reflexivity. }
  split; [exact Hkeep|]. split; [exact Hplay|].
  intros st data rate Hpy Hoss. cbv zeta.
  assert (Hinit : __init__ w st =
            (Ok tt, mkState (mkSession None None None bound_close bound_play)
                            (heap st) (calls st) (trace st))).
  { unfold __init__, open, bind, modify_self. cbn. now rewrite Hpy, Hoss. }
  rewrite Hinit. cbn.
  unfold play, open, call_do_play, bind. cbn. rewrite Hpy, Hoss. cbn. auto.
Qed.

Lemma flaky_fails_at (k : nat) (st : state) :
  calls st = 0%nat -> fails_at (flaky k) st k (Other "IOError").
Proof.
  intros Hc. unfold fails_at, succeeds_for. rewrite Hc, Nat.add_0_r. cbn.
  split.
  - intros j Hj. rewrite Nat.add_0_r.
    destruct (Nat.eqb_spec j k); [lia|reflexivity].
  - now rewrite Nat.eqb_refl.
Qed.

Lemma open_never_raises_witness :
  self (snd (open (host true true) (boot []))) =
    mkSession (Some PyAudio) None None bound_close_pyaudio bound_play_pyaudio
  /\ trace (snd (open (host true true) (boot []))) = pyaudio_init_calls
  /\ self (snd (open (flaky 3) (boot []))) =
       mkSession (Some PyTrue) None None
                 bound_close_ossaudiodev bound_play_ossaudiodev
  /\ trace (snd (open (flaky 3) (boot []))) =
       [Os "dup"; Os "close"; Os "open";
        Warn "failed to open audio module pyaudio"]
  /\ fst (play (host false false) 0 44100
            (snd (__init__ (host false false) (boot [samples []])))) = Ok tt.
Proof.
  destruct (open_never_raises (host true true)) as (_ & _ & H1 & _).
  destruct (open_never_raises (flaky 3)) as (_ & _ & _ & _ & H2 & _).
  destruct (open_never_raises (host false false))
    as (_ & _ & _ & _ & _ & _ & _ & _ & _ & H5).
  rewrite (H1 (boot []) eq_refl (fun j _ => eq_refl)).
  rewrite (proj2 (H2 (boot []) 3%nat (Other "IOError") eq_refl
                    ltac:(lia) (flaky_fails_at 3 (boot []) eq_refl))).
  split; [reflexivity|]. split; [reflexivity|].
  split; [reflexivity|]. split; [reflexivity|].
  exact (proj1 (proj2 (proj2 (proj2
           (H5 (boot [samples []]) 0%nat 44100%float eq_refl eq_refl))))).
Defined.

(** ** The caller's buffer *)

Section Frame.
Context (w : world).

Ltac run_play :=
  repeat (cbn;
          match goal with
          | |- context [fault w ?n] => destruct (fault w n)
          | |- context [(?h ++ [?x]) !! length ?h] => rewrite lookup_fresh
          | |- context [<[length ?h := ?y]> (?h ++ [?x])] => rewrite insert_fresh
          | |- context [py_int ?r] => destruct (py_int r)
          | |- context [np_max ?a] => destruct (np_max a)
          | |- context [pad ?c ?a] => destruct (pad c a)
          end);
  cbn; try (apply prefix_app_r; reflexivity); try reflexivity.

Lemma _play_ossaudiodev_prefix st data rate :
  heap st `prefix_of` heap (snd (_play_ossaudiodev w data rate st)).
Proof.
  destruct st as [[hd sm oh cl dp] hp n tr].
  unfold _play_ossaudiodev, bind, deref, native, lift. cbn.
  destruct (hp !! data); run_play.
Qed.

Lemma _play_pyaudio_prefix st data rate :
  heap st `prefix_of` heap (snd (_play_pyaudio w data rate st)).
Proof.
  destruct st as [[hd sm oh cl dp] hp n tr].
  unfold _play_pyaudio, bind, deref, native, lift. cbn.
  destruct (hp !! data); [|reflexivity].
  destruct hd as [[]|]; run_play.
Qed.

Lemma call_do_play_prefix st data rate :
  heap st `prefix_of` heap (snd (call_do_play w data rate st)).
Proof.
  unfold call_do_play, bind, get_self.
  destruct (_do_play (self st)).
  - reflexivity.
  - apply _play_pyaudio_prefix.
  - apply _play_ossaudiodev_prefix.
Qed.

Lemma open_heap st : heap (snd (open w st)) = heap st.
Proof.
  unfold open, bind.
  now destruct (open_devices_spec w st) as (sel & st' & -> & Hh & _).
Qed.

Lemma play_prefix st data rate :
  heap st `prefix_of` heap (snd (play w data rate st)).
Proof.
  unfold play, bind, get_self.
  destruct (handle (self st)).
  - cbn. apply call_do_play_prefix.
  - pose proof (open_heap st) as Hh.
    pose proof (open_returns w st) as Ho.
    destruct (open w st) as [[[]|e] st']; cbn in *; [|discriminate].
    rewrite <- Hh. apply call_do_play_prefix.
Qed.
End Frame.

(** C9: [play] leaves the caller's buffer as it found it, on every backend
    and whatever fails meanwhile: mean removal produces a new array, and
    that new array is the one divided in place. *)
Theorem play_leaves_buffer (w : world) (st : state) (data : nat) (rate : float64)
    (a : ndarray float64) :
  heap st !! data = Some a ->
  heap (snd (play w data rate st)) !! data = Some a.
Proof.
  intros Ha. eapply prefix_lookup_Some; [exact Ha|apply play_prefix].
Qed.

Lemma play_leaves_buffer_witness :
  heap (snd (play (host true true) 0 44100 (boot [samples [-3; 1; 2]]))) !! 0%nat
  = Some (samples [-3; 1; 2]).
Proof.
  exact (play_leaves_buffer (host true true) (boot [samples [-3; 1; 2]])
           0%nat 44100%float (samples [-3; 1; 2]) eq_refl).
Defined.

(** ** Closing, and the invariant of the bindings *)

Lemma call_close_returns st : bound_ok (self st) -> fst (call_close st) = Ok tt.
Proof.
  destruct st as [[hd sm oh cl dp] hp n tr]. unfold bound_ok. cbn. intros H.
  unfold call_close, bind, get_self. cbn. destruct cl; cbn.
  - reflexivity.
  - rewrite (H eq_refl). unfold _close_pyaudio, bind. cbn. now destruct sm.
  - unfold _close_ossaudiodev, bind. cbn. now destruct oh.
Qed.

Lemma call_close_bound_ok st :
  bound_ok (self st) -> bound_ok (self (snd (call_close st))).
Proof.
  destruct st as [[hd sm oh cl dp] hp n tr]. unfold bound_ok. cbn. intros H.
  unfold call_close, bind, get_self. cbn. destruct cl; cbn.
  - discriminate.
  - rewrite (H eq_refl). unfold _close_pyaudio, bind. cbn. now destruct sm.
  - unfold _close_ossaudiodev, bind. cbn. now destruct oh.
Qed.

Section Bindings.
Context (w : world).

Ltac run_binding :=
  repeat (cbn;
          match goal with
          | |- context [fault w ?n] => destruct (fault w n)
          | |- context [(?h ++ [?x]) !! length ?h] => rewrite lookup_fresh
          | |- context [<[length ?h := ?y]> (?h ++ [?x])] => rewrite insert_fresh
          | |- context [py_int ?r] => destruct (py_int r)
          | |- context [np_max ?a] => destruct (np_max a)
          | |- context [pad ?c ?a] => destruct (pad c a)
          end);
  cbn; try (split; [|split]; reflexivity).

Lemma call_do_play_binding st data rate :
  same_binding (self st) (self (snd (call_do_play w data rate st))).
Proof.
  destruct st as [[hd sm oh cl dp] hp n tr].
  unfold call_do_play, bind, get_self. cbn. destruct dp.
  - split; [|split]; reflexivity.
  - unfold _play_pyaudio, bind, deref, native, lift. cbn.
    destruct (hp !! data); [|split; [|split]; reflexivity].
    destruct hd as [[]|]; run_binding.
  - unfold _play_ossaudiodev, bind, deref, native, lift. cbn.
    destruct (hp !! data); run_binding.
Qed.

Lemma open_bound_ok st :
  bound_ok (self st) -> bound_ok (self (snd (open w st))).
Proof.
  unfold open, bind, bound_ok.
  destruct (open_devices_spec w st) as (sel & st' & -> & _ & Hsel). cbn.
  intros H Hc. destruct sel as [lib|].
  - destruct Hsel as [(_ & ->)|(_ & _ & _ & Hc' & _)]; [reflexivity|congruence].
  - destruct Hsel as (Hc' & _ & [Hh|Hh]); [|exact Hh].
    rewrite Hh. apply H. congruence.
Qed.

Lemma play_bound_ok st data rate :
  bound_ok (self st) -> bound_ok (self (snd (play w data rate st))).
Proof.
  intros H. unfold play, bind, get_self.
  assert (Hplay : forall st1, bound_ok (self st1) ->
                    bound_ok (self (snd (call_do_play w data rate st1)))).
  { intros st1 H1. destruct (call_do_play_binding st1 data rate) as (Hh & Hc & _).
    unfold bound_ok. rewrite Hh, Hc. exact H1. }
  destruct (handle (self st)).
  - cbn. now apply Hplay.
  - pose proof (open_bound_ok st H) as Ho.
    pose proof (open_returns w st) as Hr.
    destruct (open w st) as [[[]|e] st']; cbn in *; [|discriminate].
    now apply Hplay.
Qed.

Lemma __init___bound_ok st : bound_ok (self (snd (__init__ w st))).
Proof.
  unfold __init__, bind, modify_self. cbn. apply open_bound_ok.
  unfold bound_ok. cbn. discriminate.
Qed.

Lemma __init___returns st : fst (__init__ w st) = Ok tt.
Proof. unfold __init__, bind, modify_self. cbn. apply open_returns. Qed.
End Bindings.

(** C10: when the body of [with open_audio() as audio:] raises, [__exit__]
    closes the session through [__del__] and returns the exception value
    it was given; that value is true, so the [with] statement returns
    without the exception.  The hypothesis on the bindings holds after any
    body made of [open], [play] and [close] (lemmas [*_bound_ok]). *)
Theorem exit_swallows_exception (w : world) (A : Type) (body : M A)
    (st st1 : state) (e : exn) :
  body (snd (__init__ w st)) = (Raise e, st1) ->
  bound_ok (self st1) ->
  __exit__ (PyClass e) (PyExn e) PyTraceback st1 =
    (Ok (PyExn e), snd (call_close st1))
  /\ truthy (PyExn e) = true
  /\ with_open_audio w body st = (Ok None, snd (call_close st1)).
Proof.
  intros Hbody Hok. pose proof (call_close_returns st1 Hok) as Hc.
  assert (Hexit : __exit__ (PyClass e) (PyExn e) PyTraceback st1 =
                  (Ok (PyExn e), snd (call_close st1))).
  { unfold __exit__, __del__, bind.
    destruct (call_close st1) as [[[]|e'] st2]; cbn in *; [reflexivity|discriminate]. }
  split; [exact Hexit|]. split; [reflexivity|].
  unfold with_open_audio. unfold bind at 1.
  pose proof (__init___returns w st) as Hi.
  destruct (__init__ w st) as [[[]|e'] st0]; cbn in *; [|discriminate].
  unfold bind at 1. cbn. rewrite Hbody. unfold bind at 1. rewrite Hexit.
  reflexivity.
Qed.

Lemma exit_swallows_exception_witness :
  fst (with_open_audio (host true true)
         (beep (host true true) 0.05 440 44100 0.1) (boot [])) = Ok None.
Proof.
  assert (Hbody : beep (host true true) 0.05 440 44100 0.1
                    (snd (__init__ (host true true) (boot []))) =
                  (Raise IndexError,
                   snd (beep (host true true) 0.05 440 44100 0.1
                          (snd (__init__ (host true true) (boot []))))))
    by (vm_compute; reflexivity).
  assert (Hok : bound_ok (self (snd (beep (host true true) 0.05 440 44100 0.1
                          (snd (__init__ (host true true) (boot [])))))))
    by (intros _; vm_compute; reflexivity).
  destruct (exit_swallows_exception (host true true) unit _ _ _ _ Hbody Hok)
    as (_ & _ & ->).
  reflexivity.
Defined.

(** ** The ramp of [beep] *)

Lemma py_index_in n i :
  0 <= i < Z.of_nat n -> py_index n i = Ok (Z.to_nat i).
Proof.
  intros H. unfold py_index.
  destruct (Z.leb_spec 0 i); [|lia]. destruct (Z.ltb_spec i (Z.of_nat n)); [|lia].
  reflexivity.
Qed.

Lemma imul_at_flat st data xs i c :
  heap st !! data = Some (Flat xs) ->
  0 <= i < Z.of_nat (length xs) ->
  exists xs',
    length xs' = length xs
    /\ imul_at data i c st =
         (Ok tt, mkState (self st) (<[data := Flat xs']> (heap st))
                         (calls st) (trace st)).
Proof.
  intros Hd Hi. unfold imul_at, bind, deref, lift, scale_at. rewrite Hd.
  rewrite (py_index_in _ _ Hi).
  destruct (lookup_lt_is_Some_2 xs (Z.to_nat i)) as [x Hx]; [lia|].
  rewrite Hx. cbn. eexists. split; [|reflexivity]. apply length_insert.
Qed.

Lemma ramp_steps data n (coef : nat -> float64) ks :
  Forall (fun k => (k < n)%nat) ks ->
  forall st xs,
    heap st !! data = Some (Flat xs) -> length xs = n ->
    exists xs',
      length xs' = n
      /\ for_each ks (fun k =>
           imul_at data (Z.of_nat k) (coef k) ;;
           d <- deref data ;;
           imul_at data (Z.of_nat (len d) - Z.of_nat k - 1) (coef k)) st =
         (Ok tt, mkState (self st) (<[data := Flat xs']> (heap st))
                         (calls st) (trace st)).
Proof.
  induction 1 as [|k ks Hk _ IH]; intros st xs Hd Hn.
  - exists xs. split; [exact Hn|]. cbn. unfold ret.
    rewrite list_insert_id by exact Hd. now destruct st.
  - pose proof (lookup_lt_Some _ _ _ Hd) as Hlt.
    destruct (imul_at_flat st data xs (Z.of_nat k) (coef k) Hd ltac:(lia))
      as (xs1 & Hl1 & E1).
    set (st1 := mkState (self st) (<[data := Flat xs1]> (heap st))
                        (calls st) (trace st)) in *.
    assert (Hd1 : heap st1 !! data = Some (Flat xs1))
      by (apply list_lookup_insert_eq; exact Hlt).
    destruct (imul_at_flat st1 data xs1 (Z.of_nat (length xs1) - Z.of_nat k - 1)
                (coef k) Hd1 ltac:(lia)) as (xs2 & Hl2 & E2).
    set (st2 := mkState (self st1) (<[data := Flat xs2]> (heap st1))
                        (calls st1) (trace st1)) in *.
    assert (Hd2 : heap st2 !! data = Some (Flat xs2)).
    { apply list_lookup_insert_eq. cbn. rewrite length_insert. exact Hlt. }
    destruct (IH st2 xs2 Hd2 ltac:(lia)) as (xs3 & Hl3 & E3).
    exists xs3. split; [exact Hl3|].
    cbn [for_each]. unfold bind at 1. unfold bind at 1. rewrite E1.
    unfold bind at 1. unfold deref at 1. rewrite Hd1. cbn [len].
    rewrite E2. rewrite E3. cbn. now rewrite !list_insert_insert_eq.
Qed.

Lemma ramp_loop_flat data nr st xs :
  heap st !! data = Some (Flat xs) ->
  - 2 ^ 63 <= nr < 2 ^ 63 -> nr <= Z.of_nat (length xs) ->
  exists xs',
    length xs' = length xs
    /\ ramp_loop data nr st =
         (Ok tt, mkState (self st) (<[data := Flat xs']> (heap st))
                         (calls st) (trace st)).
Proof.
  intros Hd Hrange Hnr. unfold ramp_loop. unfold bind at 1.
  destruct (Z.ltb_spec nr (- 2 ^ 63)); [lia|].
  destruct (Z.leb_spec (2 ^ 63) nr); [lia|]. cbn [orb]. unfold ret at 1.
  refine (ramp_steps data (length xs)
            (fun k => (of_nat k / of_Z nr)%float)
            (seq 0 (Z.to_nat nr)) _ st xs Hd eq_refl).
  apply Forall_forall. intros k Hk. apply list_elem_of_In, in_seq in Hk. lia.
Qed.

(** [np.arange] returns fewer than 2^63 elements. *)
Lemma arange_length stop step time :
  arange stop step = Ok time -> Z.of_nat (length time) < 2 ^ 63.
Proof.
  unfold arange. destruct (step =? 0)%float; [discriminate|].
  destruct (value ((stop - 0) / step)) as [q|]; [|discriminate].
  destruct (Z.ltb_spec (Qceiling q) (- 2 ^ 63)); [discriminate|].
  destruct (Z.leb_spec (2 ^ 63) (Qceiling q)); [discriminate|]. cbn [orb].
  intros [= <-]. rewrite length_map, length_seq. lia.
Qed.

Lemma beep_run w st duration frequency rate ramp time nr :
  (rate =? 0)%float = false ->
  arange duration (1 / rate) = Ok time ->
  py_int (np_round (ramp * rate)) = Ok nr ->
  - 2 ^ 63 <= nr <= Z.of_nat (length time) ->
  exists xs,
    length xs = length time
    /\ beep w duration frequency rate ramp st =
         play w (length (heap st)) rate
           (mkState (self st) (heap st ++ [Flat xs]) (calls st) (trace st)).
Proof.
  intros Hrate Htime Hint Hnr. unfold beep. unfold bind at 1.
  rewrite Hrate. unfold ret at 1. unfold bind at 1. unfold lift at 1.
  rewrite Htime. unfold bind at 1. unfold alloc at 1.
  set (tone := map _ time).
  set (st1 := mkState (self st) (heap st ++ [Flat tone]) (calls st) (trace st)).
  assert (Hlen : length tone = length time)
    by (unfold tone; now rewrite length_map).
  pose proof (arange_length _ _ _ Htime) as Hmax.
  destruct (ramp_loop_flat (length (heap st)) nr st1 tone (lookup_fresh _ _)
              ltac:(lia) ltac:(lia)) as (xs & Hxs & Hloop).
  exists xs. split; [lia|].
  unfold bind at 1. unfold lift at 1. rewrite Hint.
  unfold bind at 1. rewrite Hloop. unfold st1. cbn. now rewrite insert_fresh.
Qed.

(** C4, as amended: the ramp sample count of [beep] is
    round(ramp * rate), and nothing clamps it.  For a rate other than
    zero, whenever [np.arange] builds the time axis and that count is at
    most the length of the synthesized buffer (the two ramps may then
    overlap) and not below -2^63, the ramp loop indexes inside the buffer,
    leaves its length unchanged, and [beep] goes on to [play] the
    buffer. *)
Theorem ramp_within_buffer (w : world) (st : state)
    (duration frequency rate ramp : float64) (time : list float64) (nr : Z) :
  (rate =? 0)%float = false ->
  arange duration (1 / rate) = Ok time ->
  py_int (np_round (ramp * rate)) = Ok nr ->
  - 2 ^ 63 <= nr <= Z.of_nat (length time) ->
  forall data tone,
    heap st !! data = Some (Flat tone) ->
    length tone = length time ->
    (exists ramped,
        length ramped = length tone
        /\ ramp_loop data nr st =
             (Ok tt, mkState (self st) (<[data := Flat ramped]> (heap st))
                             (calls st) (trace st)))
    /\ (exists xs,
           length xs = length time
           /\ beep w duration frequency rate ramp st =
                play w (length (heap st)) rate
                  (mkState (self st) (heap st ++ [Flat xs]) (calls st) (trace st))).
Proof.
  intros Hrate Htime Hint Hnr data tone Hd Hlen. split.
  - pose proof (arange_length _ _ _ Htime).
    apply ramp_loop_flat; [exact Hd|lia|lia].
  - now apply (beep_run w st duration frequency rate ramp time nr).
Qed.

Lemma ramp_within_buffer_witness :
  fst (ramp_loop 0 10 (boot [square 5])) = Ok tt
  /\ fst (beep (host false false) 0.1 5 100 0.1 (boot [square 5])) = Ok tt.
Proof.
  assert (Htime : arange 0.1 (1 / 100) =
                  Ok (match arange 0.1 (1 / 100) with
                      | Ok time => time
                      | Raise _ => []
                      end)) by (vm_compute; reflexivity).
  assert (Hint : py_int (np_round (0.1 * 100)) = Ok 10)
    by (vm_compute; reflexivity).
  assert (Hnr : - 2 ^ 63 <= 10 <=
                Z.of_nat (length (match arange 0.1 (1 / 100) with
                                  | Ok time => time
                                  | Raise _ => []
                                  end)))
    by (vm_compute; split; discriminate).
  destruct (ramp_within_buffer (host false false) (boot [square 5])
              0.1 5 100 0.1 _ 10 eq_refl Htime Hint Hnr 0%nat
              (map of_Z (concat (replicate 5 [1; -1])))
              eq_refl eq_refl) as ((ramped & _ & Hloop) & (xs & _ & Hbeep)).
  split.
  - now rewrite Hloop.
  - rewrite Hbeep. reflexivity.
Defined.

(** C4, as stated, fails on [beep(0.05, 440.0)] with the default rate and
    ramp: the buffer has 2205 samples, the ramp count is 4410, more than
    half the buffer and not clamped, and the ramp loop raises IndexError
    at index 2205. *)
Lemma ramp_not_clamped :
  (exists time, arange 0.05 (1 / 44100) = Ok time /\ length time = 2205%nat)
  /\ py_int (np_round (0.1 * 44100)) = Ok 4410
  /\ fst (ramp_loop 0 4410 (boot [Flat (replicate 2205 1%float)])) =
       Raise IndexError
  /\ fst (beep (host true true) 0.05 440 44100 0.1
            (snd (__init__ (host true true) (boot [])))) = Raise IndexError.
Proof.
  split; [|vm_compute; auto].
  destruct (arange 0.05 (1 / 44100)) as [time|] eqn:E;
    [|vm_compute in E; discriminate].
  exists time. split; [reflexivity|].
  apply (f_equal (fun r => match r with Ok t => length t | Raise _ => O end)) in E.
  vm_compute in E. now symmetry.
Qed.

(** A tone of one sample: [np.arange(0.0, 0.1, 1.0/10.0)] has the single
    element 0, the ramp count of [beep(0.1, 440.0, 10.0, 0.2)] is 2, and
    the ramp loop raises IndexError at index 1. *)
Example beep_one_sample :
  arange 0.1 (1 / 10) = Ok [zero]
  /\ py_int (np_round (0.2 * 10)) = Ok 2
  /\ fst (beep (host false false) 0.1 440 10 0.2 (boot [])) = Raise IndexError.
Proof. vm_compute. auto. Qed.

(** ** Arguments are not validated *)

Lemma open_unavailable w st :
  audio_modules w "pyaudio" = false -> audio_modules w "ossaudiodev" = false ->
  open w st = (Ok tt, st).
Proof.
  intros Hpy Hoss. unfold open, bind. cbn. now rewrite Hpy, Hoss.
Qed.

Lemma play_unavailable w st data rate :
  audio_modules w "pyaudio" = false -> audio_modules w "ossaudiodev" = false ->
  _do_play (self st) = bound_play ->
  play w data rate st = (Ok tt, st).
Proof.
  intros Hpy Hoss Hb. unfold play, bind, get_self.
  destruct (handle (self st)); cbn; rewrite ?(open_unavailable w st Hpy Hoss);
    unfold call_do_play, bind, get_self; now rewrite Hb.
Qed.

(** C2, as amended: [play] and [beep] check none of their arguments and
    have no InvalidArgument error.  On a session with no backend available
    [play] returns without error for every buffer and every rate, an empty
    buffer and a non-positive rate included, and [beep] returns without
    error for every duration, every rate other than zero and every ramp
    for which [np.arange] builds the time axis and the ramp sample count
    round(ramp * rate) is an integer from -2^63 up to the length of that
    axis, a non-positive duration, a negative rate and a ramp above
    duration/2 included. *)
Theorem arguments_not_checked (w : world) (st : state) :
  audio_modules w "pyaudio" = false ->
  audio_modules w "ossaudiodev" = false ->
  _do_play (self st) = bound_play ->
  (forall data rate, fst (play w data rate st) = Ok tt)
  /\ (forall duration frequency rate ramp time nr,
         (rate =? 0)%float = false ->
         arange duration (1 / rate) = Ok time ->
         py_int (np_round (ramp * rate)) = Ok nr ->
         - 2 ^ 63 <= nr <= Z.of_nat (length time) ->
         fst (beep w duration frequency rate ramp st) = Ok tt).
Proof.
  intros Hpy Hoss Hb. split.
  - intros data rate. now rewrite play_unavailable.
  - intros duration frequency rate ramp time nr Hrate Htime Hint Hnr.
    destruct (beep_run w st duration frequency rate ramp time nr
                Hrate Htime Hint Hnr) as (xs & _ & ->).
    now rewrite play_unavailable.
Qed.

Lemma arguments_not_checked_witness :
  fst (play (host false false) 0 0 (boot [samples []])) = Ok tt
  /\ fst (play (host false false) 0 (-44100) (boot [samples []])) = Ok tt
  /\ fst (beep (host false false) (-1) 440 44100 0 (boot [])) = Ok tt
  /\ fst (beep (host false false) 0.1 5 (-100) 0.1 (boot [])) = Ok tt
  /\ fst (beep (host false false) 1 5 4 0.75 (boot [])) = Ok tt.
Proof.
  destruct (arguments_not_checked (host false false) (boot [samples []])
              eq_refl eq_refl eq_refl) as [Hplay _].
  destruct (arguments_not_checked (host false false) (boot [])
              eq_refl eq_refl eq_refl) as [_ Hbeep].
  split; [apply Hplay|]. split; [apply Hplay|].
  split; [|split].
  - apply (Hbeep (-1)%float 440%float 44100%float 0%float [] 0);
      vm_compute; try reflexivity; split; discriminate.
  - apply (Hbeep 0.1%float 5%float (-100)%float 0.1%float [] (-10));
      vm_compute; try reflexivity; split; discriminate.
  - apply (Hbeep 1%float 5%float 4%float 0.75%float
             [0; 0.25; 0.5; 0.75]%float 3);
      vm_compute; try reflexivity; split; discriminate.
Defined.

(** C2, as stated, fails: with no backend available an empty buffer at
    rate 0, a negative duration and a ramp longer than half the tone all
    return without any error; with pyaudio an empty buffer raises
    ValueError (from [np.max]) only after the stream has been opened on
    the device. *)
Lemma invalid_arguments_accepted :
  fst (play (host false false) 0 0
         (snd (__init__ (host false false) (boot [samples []])))) = Ok tt
  /\ fst (beep (host false false) (-1) 440 44100 0
            (snd (__init__ (host false false) (boot [])))) = Ok tt
  /\ fst (beep (host false false) 1 5 4 0.75
            (snd (__init__ (host false false) (boot [])))) = Ok tt
  /\ (let out := play (host true false) 0 44100
                   (snd (__init__ (host true false) (boot [samples []]))) in
      fst out = Raise ValueError
      /\ last (trace (snd out)) = Some (StreamOpen 1 44100)).
Proof. vm_compute. auto. Qed.

(** ** Closing twice, and playing after a close *)

(** C7 at its failing input: a session on pyaudio, closed twice.  The first
    [close] leaves [handle] holding the PyAudio object, and the second
    terminates that object again. *)
Lemma close_pyaudio_twice :
  let st := snd (__init__ (host true false) (boot [])) in
  let st1 := snd (call_close st) in
  let st2 := snd (call_close st1) in
  close (self st) = bound_close_pyaudio
  /\ handle (self st1) = Some PyAudio
  /\ trace st1 = trace st ++ [Terminate]
  /\ fst (call_close st1) = Ok tt
  /\ trace st2 = trace st ++ [Terminate; Terminate].
Proof. vm_compute. auto 6. Qed.

(** X8: the sibling path does what C7 says: on ossaudiodev and on the
    do-nothing default, [close] leaves [handle] null, and a second [close]
    changes nothing. *)
Lemma close_elsewhere_idempotent st :
  close (self st) <> bound_close_pyaudio ->
  (close (self st) = bound_close -> handle (self st) = None) ->
  let st1 := snd (call_close st) in
  fst (call_close st) = Ok tt
  /\ handle (self st1) = None
  /\ call_close st1 = (Ok tt, st1).
Proof.
  destruct st as [[hd sm oh cl dp] hp n tr]. cbn. intros Hc Hn.
  destruct cl; [|congruence|].
  - rewrite (Hn eq_refl). cbn. auto.
  - destruct oh; cbn; auto.
Qed.

(** C8 at its failing input: a session on pyaudio, closed, then played.
    [handle] is not null after the [close], so [play] does not open the
    device again (no new PyAudio object) and opens its stream on the
    terminated one. *)
Lemma play_after_close_pyaudio :
  let st := snd (__init__ (host true false) (boot [square 2])) in
  let st1 := snd (call_close st) in
  let st2 := snd (play (host true false) 0 44100 st1) in
  handle (self st1) = Some PyAudio
  /\ trace st1 = trace st ++ [Terminate]
  /\ trace st2 = trace st1 ++
       [StreamOpen 1 44100;
        StreamWrite (Flat [16384; -16384; 16384; -16384; 0; 0; 0; 0]);
        StreamStop; StreamClose].
Proof. vm_compute. auto. Qed.

(** X9: on ossaudiodev the same steps do what C8 says: [close] nulls [handle]
    and the next [play] opens the backend again. *)
Lemma play_after_close_ossaudiodev :
  let st := snd (__init__ (host false true) (boot [square 2])) in
  let st1 := snd (call_close st) in
  let st2 := snd (play (host false true) 0 44100 st1) in
  handle (self st) = Some PyTrue
  /\ handle (self st1) = None
  /\ handle (self st2) = Some PyTrue
  /\ written (trace st2) = [Flat [16384; -16384; 16384; -16384]].
Proof. vm_compute. auto. Qed.
Lemma imul_at_self data i c st : self (snd (imul_at data i c st)) = self st.
Proof.
  unfold imul_at, bind, deref, lift.
  destruct (heap st !! data) as [[xs|ch rows]|]; cbn; [| |reflexivity].
  - now destruct (scale_at _ xs i).
  - now destruct (scale_at _ rows i).
Qed.

Lemma ramp_loop_self data nr st : self (snd (ramp_loop data nr st)) = self st.
Proof.
  unfold ramp_loop. unfold bind at 1.
  destruct ((nr <? - 2 ^ 63) || (2 ^ 63 <=? nr)); [reflexivity|].
  unfold ret at 1.
  generalize (seq 0 (Z.to_nat nr)). intros ks. revert st.
  induction ks as [|k ks IH]; intros st; [reflexivity|].
  cbn [for_each]. unfold bind at 1. unfold bind at 1.
  pose proof (imul_at_self data (Z.of_nat k)
                (of_nat k / of_Z nr)%float st) as H1.
  destruct (imul_at data (Z.of_nat k) _ st) as [[[]|e] st1]; cbn in H1;
    [|exact H1].
  unfold bind at 1. unfold deref at 1.
  destruct (heap st1 !! data) as [d|]; [|exact H1].
  pose proof (imul_at_self data (Z.of_nat (len d) - Z.of_nat k - 1)
                (of_nat k / of_Z nr)%float st1) as H2.
  destruct (imul_at data (Z.of_nat (len d) - Z.of_nat k - 1) _ st1)
    as [[[]|e] st2]; cbn in H2; [|cbn; congruence].
  rewrite IH. congruence.
Qed.

Lemma beep_bound_ok w st duration frequency rate ramp :
  bound_ok (self st) ->
  bound_ok (self (snd (beep w duration frequency rate ramp st))).
Proof.
  intros H. unfold beep. unfold bind at 1.
  destruct (rate =? 0)%float; [exact H|]. unfold ret at 1.
  unfold bind at 1. unfold lift at 1.
  destruct (arange duration (1 / rate)) as [time|e]; [|exact H].
  unfold bind at 1. unfold alloc at 1.
  set (st1 := mkState _ _ _ _). unfold bind at 1. unfold lift at 1.
  destruct (py_int _) as [nr|e]; [|exact H].
  unfold bind at 1.
  pose proof (ramp_loop_self (length (heap st)) nr st1) as Hs.
  destruct (ramp_loop _ _ st1) as [[[]|e] st2]; cbn in Hs.
  - apply play_bound_ok. now rewrite Hs.
  - cbn. now rewrite Hs.
Qed.

(** ** Further properties of the session *)

(** X1: [open_pyaudio] has no cleanup.  When its [k]-th native call raises
    (counting from 0), the exception leaves [open_pyaudio] at once: the
    calls after it are never made, so a failure between [os.close(2)] and
    [os.dup(oldstderr)] (for instance of [pyaudio.PyAudio()], [k = 3])
    leaves the error stream redirected and [tmpfile.tmp] in place;
    [close] and [_do_play] are not rebound, and [handle] already holds the
    PyAudio object when the failure comes after [pyaudio.PyAudio()]. *)
Theorem open_pyaudio_failure_skips_the_rest (w : world) (st : state)
    (k : nat) (e : exn) :
  audio_modules w "pyaudio" = true -> (k < 8)%nat -> fails_at w st k e ->
  let out := open_pyaudio w st in
  fst out = Raise e
  /\ trace (snd out) = trace st ++ take k pyaudio_init_calls
  /\ calls (snd out) = (S k + calls st)%nat
  /\ close (self (snd out)) = close (self st)
  /\ _do_play (self (snd out)) = _do_play (self st)
  /\ handle (self (snd out)) =
       (if (4 <=? k)%nat then Some PyAudio else handle (self st)).
Proof.
  intros Hpy Hk Hf. cbv zeta.
  rewrite (open_pyaudio_fails_at w st k e Hpy Hk Hf). cbn. auto 6.
Qed.

Lemma open_pyaudio_failure_skips_the_rest_witness :
  let out := open_pyaudio (flaky 3) (boot []) in
  fst out = Raise (Other "IOError")
  /\ trace (snd out) = [Os "dup"; Os "close"; Os "open"]
  /\ handle (self (snd out)) = None.
Proof.
  destruct (open_pyaudio_failure_skips_the_rest (flaky 3) (boot []) 3
              (Other "IOError") eq_refl ltac:(lia)
              (flaky_fails_at 3 (boot []) eq_refl))
    as (H1 & H2 & _ & _ & _ & H6).
  cbv zeta. split; [exact H1|]. split; [exact H2|exact H6].
Defined.

(** X2: a half-opened pyaudio makes the session silent for good.  On a host
    with pyaudio only, when a native call of [open_pyaudio] after
    [pyaudio.PyAudio()] raises during [PlayAudio()], the session keeps the
    PyAudio object in [handle] with the do-nothing [_play] and [_close]
    bound; since [handle] is not null, every later [play] returns at once,
    writes nothing and never tries to open a backend again. *)
Theorem half_opened_pyaudio_is_silent (w : world) (st : state)
    (k : nat) (e : exn) :
  audio_modules w "pyaudio" = true ->
  audio_modules w "ossaudiodev" = false ->
  (4 <= k < 8)%nat -> fails_at w st k e ->
  let st' := snd (__init__ w st) in
  fst (__init__ w st) = Ok tt
  /\ handle (self st') = Some PyAudio
  /\ close (self st') = bound_close
  /\ _do_play (self st') = bound_play
  /\ (forall data rate, play w data rate st' = (Ok tt, st')).
Proof.
  intros Hpy Hoss Hk Hf. cbv zeta.
  set (st0 := mkState (mkSession None None None bound_close bound_play)
                      (heap st) (calls st) (trace st)).
  assert (Hf0 : fails_at w st0 k e) by exact Hf.
  assert (Hinit : __init__ w st =
            (Ok tt,
             mkState (mkSession (Some PyAudio) None None bound_close bound_play)
                     (heap st) (S k + calls st)
                     (trace st ++ take k pyaudio_init_calls
                        ++ [Warn "failed to open audio module pyaudio"]))).
  { unfold __init__. unfold bind at 1. unfold modify_self at 1. fold st0.
    rewrite (open_after_failure w st0 k e Hpy ltac:(lia) Hf0).
    replace (4 <=? k)%nat with true by (symmetry; apply Nat.leb_le; lia).
    rewrite Hoss. reflexivity. }
  rewrite Hinit. cbn. repeat split; reflexivity.
Qed.

Lemma half_opened_pyaudio_is_silent_witness :
  let w := mkWorld (registry true false)
             (fun k => if Nat.eqb k 7 then Some (Other "OSError") else None)
             x86_cast sine sequential_mean in
  let st' := snd (__init__ w (boot [square 2])) in
  handle (self st') = Some PyAudio
  /\ play w 0 44100 st' = (Ok tt, st')
  /\ written (trace st') = [].
Proof.
  cbv zeta.
  set (w := mkWorld (registry true false)
             (fun k => if Nat.eqb k 7 then Some (Other "OSError") else None)
             x86_cast sine sequential_mean).
  assert (Hf : fails_at w (boot [square 2]) 7 (Other "OSError")).
  { split; [|reflexivity].
    intros j Hj. do 7 (destruct j as [|j]; [reflexivity|]). lia. }
  destruct (half_opened_pyaudio_is_silent w (boot [square 2]) 7 (Other "OSError")
              eq_refl eq_refl ltac:(lia) Hf) as (_ & Hh & _ & _ & Hp).
  split; [exact Hh|]. split; [apply Hp|reflexivity].
Defined.

(** ** What every sequence of calls keeps *)

Lemma call_close_binding st :
  close (self (snd (call_close st))) = close (self st)
  /\ _do_play (self (snd (call_close st))) = _do_play (self st).
Proof.
  destruct st as [[hd sm oh cl dp] hp n tr].
  unfold call_close, bind, get_self. cbn. destruct cl; cbn.
  - auto.
  - unfold _close_pyaudio, bind. cbn. destruct sm, hd as [[]|]; cbn; auto.
  - unfold _close_ossaudiodev, bind. cbn. destruct oh; cbn; auto.
Qed.

Lemma open_paired w st : paired (self st) -> paired (self (snd (open w st))).
Proof.
  unfold open, bind, paired.
  destruct (open_devices_spec w st) as (sel & st' & -> & _ & Hsel). cbn.
  intros H. destruct sel as [lib|].
  - destruct Hsel as [(_ & ->)|(_ & _ & _ & Hc & Hp)]; cbn; auto.
  - destruct Hsel as (Hc & Hp & _). now rewrite Hc, Hp.
Qed.

Lemma play_paired w st data rate :
  paired (self st) -> paired (self (snd (play w data rate st))).
Proof.
  intros H. unfold play, bind, get_self.
  assert (Hplay : forall st1, paired (self st1) ->
                    paired (self (snd (call_do_play w data rate st1)))).
  { intros st1 H1. destruct (call_do_play_binding w st1 data rate) as (_ & Hc & Hp).
    unfold paired. rewrite Hc, Hp. exact H1. }
  destruct (handle (self st)).
  - cbn. now apply Hplay.
  - pose proof (open_paired w st H) as Ho.
    pose proof (open_returns w st) as Hr.
    destruct (open w st) as [[[]|e] st']; cbn in *; [|discriminate].
    now apply Hplay.
Qed.

Lemma beep_paired w st duration frequency rate ramp :
  paired (self st) ->
  paired (self (snd (beep w duration frequency rate ramp st))).
Proof.
  intros H. unfold beep. unfold bind at 1.
  destruct (rate =? 0)%float; [exact H|]. unfold ret at 1.
  unfold bind at 1. unfold lift at 1.
  destruct (arange duration (1 / rate)) as [time|e]; [|exact H].
  unfold bind at 1. unfold alloc at 1.
  set (st1 := mkState _ _ _ _). unfold bind at 1. unfold lift at 1.
  destruct (py_int _) as [nr|e]; [|exact H].
  unfold bind at 1.
  pose proof (ramp_loop_self (length (heap st)) nr st1) as Hs.
  destruct (ramp_loop _ _ st1) as [[[]|e] st2]; cbn in Hs.
  - apply play_paired. now rewrite Hs.
  - cbn. now rewrite Hs.
Qed.

Lemma perform_keeps w c st :
  paired (self st) /\ bound_ok (self st) ->
  paired (self (snd (perform w c st))) /\ bound_ok (self (snd (perform w c st))).
Proof.
  intros [Hp Hb]. destruct c; cbn [perform].
  - split; [now apply open_paired|now apply open_bound_ok].
  - split; [now apply play_paired|now apply play_bound_ok].
  - split; [now apply beep_paired|now apply beep_bound_ok].
  - split; [|now apply call_close_bound_ok].
    destruct (call_close_binding st) as [Hc Hd]. unfold paired.
    now rewrite Hc, Hd.
Qed.

Lemma after_keeps w cs st :
  paired (self st) /\ bound_ok (self st) ->
  paired (self (after w cs st)) /\ bound_ok (self (after w cs st)).
Proof.
  revert st. induction cs as [|c cs IH]; intros st H; cbn [after]; [exact H|].
  apply IH. now apply perform_keeps.
Qed.

Lemma __init___paired w st : paired (self (snd (__init__ w st))).
Proof.
  unfold __init__, bind, modify_self. cbn. apply open_paired. left. cbn. auto.
Qed.

(** X3: whatever a caller does with a session, and whatever fails meanwhile,
    [close] and [_do_play] stay bound to the implementations of one and
    the same backend, the pyaudio ones only while [handle] holds the
    PyAudio object; so [close()] never raises, and the bound
    [_play_pyaudio] never finds [handle] without its [open] method. *)
Theorem session_calls_keep_bindings_paired (w : world) (st : state)
    (cs : list call) :
  let st' := after w cs (snd (__init__ w st)) in
  paired (self st')
  /\ (_do_play (self st') = bound_play_pyaudio -> handle (self st') = Some PyAudio)
  /\ fst (call_close st') = Ok tt.
Proof.
  cbv zeta.
  destruct (after_keeps w cs (snd (__init__ w st))
              (conj (__init___paired w st) (__init___bound_ok w st))) as [Hp Hb].
  split; [exact Hp|]. split; [|now apply call_close_returns].
  intros Hd. apply Hb.
  destruct Hp as [[_ H]|[[H _]|[_ H]]]; congruence.
Qed.

(** X4: when the body of [with open_audio() as audio:] returns, the statement
    closes the session through [__exit__] and [__del__], and the value
    [None] that [__exit__] is given back raises nothing: the body's result
    is the statement's. *)
Theorem with_closes_on_return (w : world) (A : Type) (body : M A)
    (st st1 : state) (a : A) :
  body (snd (__init__ w st)) = (Ok a, st1) ->
  bound_ok (self st1) ->
  with_open_audio w body st = (Ok (Some a), snd (call_close st1)).
Proof.
  intros Hbody Hok. pose proof (call_close_returns st1 Hok) as Hc.
  assert (Hexit : __exit__ PyNone PyNone PyNone st1 =
                  (Ok PyNone, snd (call_close st1))).
  { unfold __exit__, __del__, bind.
    destruct (call_close st1) as [[[]|e'] st2]; cbn in *; [reflexivity|discriminate]. }
  unfold with_open_audio. unfold bind at 1.
  pose proof (__init___returns w st) as Hi.
  destruct (__init__ w st) as [[[]|e'] st0]; cbn in Hi, Hbody |- *; [|discriminate].
  unfold bind at 1. cbn -[call_close __exit__]. rewrite Hbody, Hexit.
  reflexivity.
Qed.

Lemma with_closes_on_return_witness :
  let out := with_open_audio (host true false)
               (play (host true false) 0 44100) (boot [square 2]) in
  fst out = Ok (Some tt)
  /\ last (trace (snd out)) = Some Terminate.
Proof.
  cbv zeta.
  assert (Hbody : play (host true false) 0 44100
                    (snd (__init__ (host true false) (boot [square 2]))) =
                  (Ok tt,
                   snd (play (host true false) 0 44100
                          (snd (__init__ (host true false) (boot [square 2]))))))
    by (vm_compute; reflexivity).
  assert (Hok : bound_ok (self (snd (play (host true false) 0 44100
                          (snd (__init__ (host true false) (boot [square 2])))))))
    by (intros _; vm_compute; reflexivity).
  rewrite (with_closes_on_return (host true false) unit _ _ _ tt Hbody Hok).
  split; [reflexivity|vm_compute; reflexivity].
Defined.

(** ** The module-level functions *)

Lemma module_perform_created w c st :
  offered c ->
  snd (module_perform w c (true, st)) = (true, snd (perform w c st)).
Proof.
  intros H. destruct c; cbn [offered] in H; try contradiction;
    unfold module_perform, module_play, module_beep, perform.
  - now destruct (play w data rate st).
  - now destruct (beep w duration frequency rate ramp st).
Qed.

Lemma module_after_created w cs st :
  Forall offered cs ->
  module_after w cs (true, st) = (true, after w cs st).
Proof.
  intros H. revert st. induction H as [|c cs Hc _ IH]; intros st; [reflexivity|].
  cbn [module_after after]. now rewrite (module_perform_created w c st Hc), IH.
Qed.

(** X5: the module-level [play] and [beep] share one session.  The first call
    creates the default PlayAudio instance, which cannot fail, and every
    later call finds it: any sequence of at least one module-level call
    leaves the global [handle] set and the program in the state that one
    [PlayAudio()] followed by the same method calls on that instance
    leaves it in; the module never closes the instance. *)
Theorem module_calls_share_one_session (w : world) (st : state)
    (c : call) (cs : list call) :
  offered c -> Forall offered cs ->
  module_after w (c :: cs) (false, st) =
    (true, after w (c :: cs) (snd (__init__ w st))).
Proof.
  intros Hc Hcs. cbn [module_after after].
  assert (Hfirst : snd (module_perform w c (false, st)) =
                   (true, snd (perform w c (snd (__init__ w st))))).
  { pose proof (__init___returns w st) as Hi.
    destruct c; cbn [offered] in Hc; try contradiction;
      unfold module_perform, module_play, module_beep, perform.
    - destruct (__init__ w st) as [[[]|e] st1]; cbn [fst snd] in *;
        [|discriminate].
      now destruct (play w data rate st1).
    - destruct (__init__ w st) as [[[]|e] st1]; cbn [fst snd] in *;
        [|discriminate].
      now destruct (beep w duration frequency rate ramp st1). }
  rewrite Hfirst. now apply module_after_created.
Qed.

Lemma module_calls_share_one_session_witness :
  let g := module_after (host true false)
             [CallPlay 0 44100; CallBeep 1 5 4 0.25; CallPlay 0 44100]
             (false, boot [square 2]) in
  fst g = true
  /\ pyaudio_inits (trace (snd g)) = 1%nat
  /\ length (written (trace (snd g))) = 3%nat.
Proof.
  cbv zeta.
  rewrite (module_calls_share_one_session (host true false) (boot [square 2])
             (CallPlay 0 44100)
             [CallBeep 1 5 4 0.25; CallPlay 0 44100]
             I ltac:(repeat constructor)).
  vm_compute. auto.
Defined.

(** ** A write that fails *)

(** X6: when [stream.write] raises in [_play_pyaudio], the exception leaves the
    method at once: [stop_stream] and [close] of lines 144-145 are not
    called and [self.stream] keeps the open stream.  A later [close()]
    closes that stream before it terminates PyAudio. *)
Theorem failed_write_leaves_stream_open (w : world) (st : state)
    (data : nat) (rate : float64) (hz : Z) (d r : ndarray float64) (e : exn) :
  heap st !! data = Some d ->
  handle (self st) = Some PyAudio ->
  close (self st) = bound_close_pyaudio ->
  py_int rate = Ok hz -> normalize w d = Ok r -> stackable d ->
  fails_at w st 1 e ->
  let out := _play_pyaudio w data rate st in
  fst out = Raise e
  /\ stream (self (snd out)) = Some Stream
  /\ trace (snd out) = trace st ++ [StreamOpen (channels_of d) hz]
  /\ fst (call_close (snd out)) = Ok tt
  /\ stream (self (snd (call_close (snd out)))) = None
  /\ trace (snd (call_close (snd out))) =
       trace st ++ [StreamOpen (channels_of d) hz; StreamClose; Terminate].
Proof.
  intros Hd Hh Hc Hz Hr Hs [H0 H1]. cbv zeta.
  specialize (H0 0%nat ltac:(lia)).
  destruct (normalize_shape w d r Hr) as (Hl & Hch & Hst).
  pose proof (pad_stackable r (proj1 Hst Hs)) as Hpad. rewrite Hch in Hpad.
  unfold normalize in Hr.
  destruct (np_max (demean w d)) as [mx|] eqn:Hmx; [|discriminate].
  injection Hr as Hr.
  destruct st as [[hd sm oh cl dp] hp n tr]. cbn in Hd, Hh, Hc, H0, H1.
  subst hd cl.
  unfold _play_pyaudio, bind, deref, lift, native. cbn. rewrite Hd. cbn.
  rewrite Hz, H0. cbn. rewrite lookup_fresh. cbn. rewrite Hmx. cbn.
  rewrite insert_fresh, lookup_fresh. cbn. rewrite Hr, Hpad. cbn.
  rewrite H1. cbn. unfold call_close, _close_pyaudio, bind. cbn.
  rewrite <- !app_assoc. auto 8.
Qed.

Lemma failed_write_leaves_stream_open_witness :
  let w := mkWorld (registry true false)
             (fun k => if Nat.eqb k 9 then Some (Other "IOError") else None)
             x86_cast sine sequential_mean in
  let out := play w 0 44100 (snd (__init__ w (boot [square 2]))) in
  fst out = Raise (Other "IOError")
  /\ stream (self (snd out)) = Some Stream
  /\ written (trace (snd out)) = []
  /\ fst (call_close (snd out)) = Ok tt.
Proof.
  cbv zeta.
  set (w := mkWorld (registry true false)
             (fun k => if Nat.eqb k 9 then Some (Other "IOError") else None)
             x86_cast sine sequential_mean).
  assert (Hf : fails_at w (snd (__init__ w (boot [square 2]))) 1
                 (Other "IOError")).
  { split; [|reflexivity].
    intros j Hj. destruct j as [|j]; [reflexivity|lia]. }
  assert (Hd : heap (snd (__init__ w (boot [square 2]))) !! 0%nat =
               Some (square 2)) by (vm_compute; reflexivity).
  assert (Hh : handle (self (snd (__init__ w (boot [square 2])))) =
               Some PyAudio) by (vm_compute; reflexivity).
  assert (Hc : close (self (snd (__init__ w (boot [square 2])))) =
               bound_close_pyaudio) by (vm_compute; reflexivity).
  assert (Hz : py_int 44100 = Ok 44100) by (vm_compute; reflexivity).
  assert (Hr : normalize w (square 2) = Ok (Flat [0.5; -0.5; 0.5; -0.5]%float))
    by (vm_compute; reflexivity).
  destruct (failed_write_leaves_stream_open w (snd (__init__ w (boot [square 2])))
              0%nat 44100%float 44100 (square 2)
              (Flat [0.5; -0.5; 0.5; -0.5]%float) (Other "IOError")
              Hd Hh Hc Hz Hr I Hf)
    as (H1 & H2 & H3 & H4 & _).
  assert (Hplay : play w 0 44100 (snd (__init__ w (boot [square 2]))) =
                  _play_pyaudio w 0 44100 (snd (__init__ w (boot [square 2]))))
    by (vm_compute; reflexivity).
  rewrite Hplay. split; [exact H1|]. split; [exact H2|].
  split; [rewrite H3; vm_compute; reflexivity|exact H4].
Defined.

(** X7: when a native call of [_play_ossaudiodev] after [ossaudiodev.open]
    raises, the device stays open in [self.osshandle] and nothing more is
    written; a later [close()] closes the device and nulls [handle], so
    that the next [play] opens a backend again. *)
Theorem failed_oss_call_leaves_device_open (w : world) (st : state)
    (data : nat) (rate : float64) (hz : Z) (d r : ndarray float64)
    (k : nat) (e : exn) :
  heap st !! data = Some d ->
  close (self st) = bound_close_ossaudiodev ->
  py_int rate = Ok hz -> normalize w d = Ok r ->
  (1 <= k < 5)%nat -> fails_at w st k e ->
  let out := _play_ossaudiodev w data rate st in
  fst out = Raise e
  /\ osshandle (self (snd out)) = Some OssDevice
  /\ written (trace (snd out)) = written (trace st)
  /\ fst (call_close (snd out)) = Ok tt
  /\ handle (self (snd (call_close (snd out)))) = None
  /\ osshandle (self (snd (call_close (snd out)))) = None
  /\ trace (snd (call_close (snd out))) = trace (snd out) ++ [OssClose].
Proof.
  intros Hd Hc Hz Hr Hk [Hs He]. cbv zeta.
  unfold normalize in Hr.
  destruct (np_max (demean w d)) as [mx|] eqn:Hmx; [|discriminate].
  destruct st as [[hd sm oh cl dp] hp n tr]. cbn in Hd, Hc, He. subst cl.
  unfold succeeds_for in Hs. cbn in Hs.
  pose proof (Hs 0%nat ltac:(lia)) as H0. cbn in H0.
  unfold _play_ossaudiodev, bind, deref, lift, native. cbn. rewrite Hd. cbn.
  rewrite H0. cbn.
  destruct k as [|[|[|[|[|k]]]]]; try lia.
  - cbn in He. rewrite He. cbn. unfold call_close, _close_ossaudiodev, bind.
    cbn. rewrite !written_app. cbn. rewrite ?app_nil_r. auto 8.
  - pose proof (Hs 1%nat ltac:(lia)) as H1. cbn in H1, He.
    rewrite H1. cbn. rewrite He. cbn.
    unfold call_close, _close_ossaudiodev, bind.
    cbn. rewrite !written_app. cbn. rewrite ?app_nil_r. auto 8.
  - pose proof (Hs 1%nat ltac:(lia)) as H1. pose proof (Hs 2%nat ltac:(lia)) as H2.
    cbn in H1, H2, He.
    rewrite H1. cbn. rewrite H2. cbn. rewrite Hz. cbn. rewrite He. cbn.
    unfold call_close, _close_ossaudiodev, bind.
    cbn. rewrite !written_app. cbn. rewrite ?app_nil_r. auto 8.
  - pose proof (Hs 1%nat ltac:(lia)) as H1. pose proof (Hs 2%nat ltac:(lia)) as H2.
    pose proof (Hs 3%nat ltac:(lia)) as H3. cbn in H1, H2, H3, He.
    rewrite H1. cbn. rewrite H2. cbn. rewrite Hz. cbn. rewrite H3. cbn.
    rewrite lookup_fresh. cbn. rewrite Hmx. cbn.
    rewrite insert_fresh, lookup_fresh. cbn. rewrite He. cbn.
    unfold call_close, _close_ossaudiodev, bind.
    cbn. rewrite !written_app. cbn. rewrite ?app_nil_r. auto 8.
Qed.

Lemma failed_oss_call_leaves_device_open_witness :
  let out := _play_ossaudiodev (flaky 4) 0 44100
               (snd (__init__ (host false true) (boot [square 2]))) in
  fst out = Raise (Other "IOError")
  /\ osshandle (self (snd out)) = Some OssDevice
  /\ written (trace (snd out)) = []
  /\ handle (self (snd (call_close (snd out)))) = None.
Proof.
  cbv zeta.
  assert (Hd : heap (snd (__init__ (host false true) (boot [square 2]))) !! 0%nat =
               Some (square 2)) by (vm_compute; reflexivity).
  assert (Hc : close (self (snd (__init__ (host false true) (boot [square 2])))) =
               bound_close_ossaudiodev) by (vm_compute; reflexivity).
  assert (Hz : py_int 44100 = Ok 44100) by (vm_compute; reflexivity).
  assert (Hr : normalize (flaky 4) (square 2) =
               Ok (Flat [0.5; -0.5; 0.5; -0.5]%float))
    by (vm_compute; reflexivity).
  assert (Hn : calls (snd (__init__ (host false true) (boot [square 2]))) = 0%nat)
    by (vm_compute; reflexivity).
  destruct (failed_oss_call_leaves_device_open (flaky 4)
              (snd (__init__ (host false true) (boot [square 2])))
              0%nat 44100%float 44100 (square 2)
              (Flat [0.5; -0.5; 0.5; -0.5]%float) 4 (Other "IOError")
              Hd Hc Hz Hr ltac:(lia) (flaky_fails_at 4 _ Hn))
    as (H1 & H2 & H3 & _ & H5 & _).
  split; [exact H1|]. split; [exact H2|]. split; [exact H3|exact H5].
Defined.

Lemma close_elsewhere_idempotent_witness :
  let st := snd (__init__ (host false true) (boot [])) in
  handle (self st) = Some PyTrue
  /\ handle (self (snd (call_close st))) = None
  /\ call_close (snd (call_close st)) = (Ok tt, snd (call_close st)).
Proof.
  cbv zeta.
  assert (Hc : close (self (snd (__init__ (host false true) (boot [])))) <>
               bound_close_pyaudio) by (vm_compute; discriminate).
  assert (Hn : close (self (snd (__init__ (host false true) (boot [])))) =
               bound_close ->
               handle (self (snd (__init__ (host false true) (boot [])))) = None)
    by (vm_compute; discriminate).
  destruct (close_elsewhere_idempotent _ Hc Hn) as (_ & H1 & H2).
  split; [reflexivity|]. split; [exact H1|exact H2].
Defined.
